(** * SafariConverter: the AdGuard -> Safari content-blocker rule converter

    A shallow embedding of [SafariContentBlockerConverter]
    (src/converter/src/main/rules/filter-rule-builder.js) and the properties
    of its conversion pipeline.

    Conventions of the embedding
    - a JavaScript string is a [string]; a character above 127 stands for a
      non-ASCII code unit;
    - [null]/[undefined] and an absent object key are [None];
    - a function that may [throw] returns an [outcome];
    - an array that the code fills with [push] is a list in push order;
    - the objects the converter only consumes (the parsed rule classes, the
      [adguard] utility namespace) are records of their accessors. *)

From Stdlib Require Import String Ascii List Bool Arith ZArith Lia DecimalString.
Import ListNotations.
Local Open Scope list_scope.
Local Open Scope string_scope.

Set Implicit Arguments.

(* ------------------------------------------------------------------ *)
(** * JavaScript string primitives *)
(* ------------------------------------------------------------------ *)

Module JsString.

(** [str.indexOf(pat)] scanning the suffix [s] that starts at absolute
    position [pos]; [None] is JavaScript's [-1]. *)
Fixpoint indexOfAux (pat s : string) (pos : nat) : option nat :=
  if String.prefix pat s then Some pos
  else match s with
       | EmptyString => None
       | String _ s' => indexOfAux pat s' (S pos)
       end.

Definition indexOf (pat s : string) : option nat := indexOfAux pat s 0.

(** The suffix of [s] from position [n] on: [s.substring(n)]. *)
Fixpoint skip (n : nat) (s : string) : string :=
  match n, s with
  | O, _ => s
  | S n', String _ s' => skip n' s'
  | S _, EmptyString => EmptyString
  end.

(** [s.indexOf(pat, from)] for [from <= s.length]. *)
Definition indexOfFrom (pat s : string) (from : nat) : option nat :=
  indexOfAux pat (skip from s) from.

(** [s.substring(from, to)] for [from <= to]. *)
Definition substring2 (from to : nat) (s : string) : string :=
  String.substring from (to - from) s.

(** [adguard.utils.strings.startWith(str, prefix)]. *)
Definition startWith (str pre : string) : bool := String.prefix pre str.

(** Truthiness of a string: only the empty string is falsy. *)
Definition truthy (s : string) : bool :=
  match s with EmptyString => false | _ => true end.

Definition code (c : ascii) : nat := nat_of_ascii c.

Definition inRange (lo hi c : ascii) : bool :=
  Nat.leb (code lo) (code c) && Nat.leb (code c) (code hi).

Definition isUpper (c : ascii) : bool := inRange "A" "Z" c.
Definition isLower (c : ascii) : bool := inRange "a" "z" c.
Definition isDigit (c : ascii) : bool := inRange "0" "9" c.

(** [String.prototype.toLowerCase] on the ASCII letters; code units above
    127 are kept (the converter only lower-cases host names). *)
Definition lowerChar (c : ascii) : ascii :=
  if isUpper c then ascii_of_nat (code c + 32) else c.

Fixpoint toLowerCase (s : string) : string :=
  match s with
  | EmptyString => EmptyString
  | String c s' => String (lowerChar c) (toLowerCase s')
  end.

(** Number of occurrences of the character [c]. *)
Fixpoint countChar (c : ascii) (s : string) : nat :=
  match s with
  | EmptyString => 0
  | String d s' => (if Ascii.eqb c d then 1 else 0) + countChar c s'
  end.

End JsString.

(* ------------------------------------------------------------------ *)
(** * Regular expressions (the fragment the converter's literals use) *)
(* ------------------------------------------------------------------ *)

Module Regex.

Inductive regex : Type :=
| Void                                (* matches nothing *)
| Eps                                 (* the empty word *)
| Cls (p : ascii -> bool)             (* one character of a class *)
| Seq (r1 r2 : regex)
| Alt (r1 r2 : regex)
| Star (r : regex).

Definition chr (c : ascii) : regex := Cls (Ascii.eqb c).
Definition plus (r : regex) : regex := Seq r (Star r).

Fixpoint lit (s : string) : regex :=
  match s with
  | EmptyString => Eps
  | String c s' => Seq (chr c) (lit s')
  end.

Fixpoint nullable (r : regex) : bool :=
  match r with
  | Void => false
  | Eps => true
  | Cls _ => false
  | Seq r1 r2 => nullable r1 && nullable r2
  | Alt r1 r2 => nullable r1 || nullable r2
  | Star _ => true
  end.

Definition mkSeq (r1 r2 : regex) : regex :=
  match r1, r2 with
  | Void, _ => Void
  | _, Void => Void
  | Eps, _ => r2
  | _, _ => Seq r1 r2
  end.

Definition mkAlt (r1 r2 : regex) : regex :=
  match r1, r2 with
  | Void, _ => r2
  | _, Void => r1
  | _, _ => Alt r1 r2
  end.

(** Brzozowski derivative. *)
Fixpoint deriv (c : ascii) (r : regex) : regex :=
  match r with
  | Void => Void
  | Eps => Void
  | Cls p => if p c then Eps else Void
  | Seq r1 r2 =>
      if nullable r1
      then mkAlt (mkSeq (deriv c r1) r2) (deriv c r2)
      else mkSeq (deriv c r1) r2
  | Alt r1 r2 => mkAlt (deriv c r1) (deriv c r2)
  | Star r1 => mkSeq (deriv c r1) (Star r1)
  end.

(** The whole of [s] is a word of [r]: [/^r$/.test(s)]. *)
Fixpoint matches (r : regex) (s : string) : bool :=
  match s with
  | EmptyString => nullable r
  | String c s' => matches (deriv c r) s'
  end.

Definition anyUnit : regex := Cls (fun _ => true).

(** Some substring of [s] is a word of [r]: [s.match(/r/g)] is not null,
    [/r/.test(s)]. *)
Definition search (r : regex) (s : string) : bool :=
  matches (Seq (Star anyUnit) (Seq r (Star anyUnit))) s.

(** ** Character classes *)

Definition oneOf (set : string) (c : ascii) : bool :=
  match String.index 0 (String c EmptyString) set with
  | Some _ => true
  | None => false
  end.

Definition alnum (c : ascii) : bool :=
  JsString.isLower c || JsString.isUpper c || JsString.isDigit c.

(** [.] : anything but a line terminator. *)
Definition dot (c : ascii) : bool :=
  negb (Nat.eqb (JsString.code c) 10 || Nat.eqb (JsString.code c) 13).

(** [\S] : tab, LF, VT, FF, CR and space are the ASCII white space. *)
Definition nonSpace (c : ascii) : bool :=
  negb ((Nat.leb 9 (JsString.code c) && Nat.leb (JsString.code c) 13)
        || Nat.eqb (JsString.code c) 32).

Definition notBackslash (c : ascii) : bool := negb (Ascii.eqb c "\").

End Regex.

(* ------------------------------------------------------------------ *)
(** * Exceptions *)
(* ------------------------------------------------------------------ *)

(** A thrown JavaScript exception: [new Error(message)], or the [TypeError]
    the engine raises on a call of a missing method. *)
Inductive exn : Type :=
| Error (message : string)
| TypeError (message : string).

(** ['' + ex] *)
Definition exnToString (ex : exn) : string :=
  match ex with
  | Error m => "Error: " ++ m
  | TypeError m => "TypeError: " ++ m
  end.

Inductive outcome (A : Type) : Type :=
| Ret (a : A)
| Throw (ex : exn).

Arguments Ret {A} a.
Arguments Throw {A} ex.

Definition bind {A B : Type} (c : outcome A) (k : A -> outcome B) : outcome B :=
  match c with
  | Ret a => k a
  | Throw ex => Throw ex
  end.

Notation "x <- c ;; k" := (bind c (fun x => k))
  (at level 61, c at next level, right associativity).
Notation "c ;;; k" := (bind c (fun _ => k))
  (at level 61, right associativity).

(** [if (cond) throw new Error(message)] *)
Definition throwIf (cond : bool) (message : string) : outcome unit :=
  if cond then Throw (Error message) else Ret tt.

(* ------------------------------------------------------------------ *)
(** * Data model *)
(* ------------------------------------------------------------------ *)

(** The class of a parsed rule, as [instanceof] sees it.  [OtherRule] stands
    for the script, scriptlet and composite rules. *)
Inductive RuleClass : Type :=
| CssFilterRule
| UrlFilterRule
| OtherRule.

(** A parsed rule.  The rule classes are declared outside this file; the record
    lists the properties and the results of the accessor methods that the
    converter reads. *)
Record Rule : Type := mkRule {
  ruleClass : RuleClass;
  ruleText : string;
  ruleToString : string;                      (* '' + rule *)
  whiteListRule : bool;
  isImportant : bool;
  isBadFilter : bool;                         (* rule.isBadFilter && rule.isBadFilter() *)
  badFilter : string;
  permittedDomain : option string;
  permittedDomains : option (list string);
  restrictedDomain : option string;
  restrictedDomains : option (list string);
  (* CssFilterRule *)
  cssSelector : string;
  isInjectRule : bool;
  extendedCss : bool;
  (* UrlFilterRule *)
  permittedContentType : Z;
  restrictedContentType : Z;
  enabledOptions : Z;
  checkContentTypeMask : Z -> bool;
  isCspRule : bool;
  getReplace : bool;                          (* truthiness of rule.getReplace() *)
  isCheckThirdParty : bool;
  isThirdParty : bool;
  isMatchCase : bool;
  isBlockPopups : bool;
  isDocumentWhiteList : bool;
  getUrlRuleText : string;
  isRegexRule : bool;
  urlRegExp : option string;                  (* urlRegExp.source *)
  getUrlRegExpSource : string
}.

(** [adguard.rules.UrlFilterRule.contentTypes] *)
Record ContentTypes : Type := mkContentTypes {
  ALL : Z; IMAGE : Z; STYLESHEET : Z; SCRIPT : Z; MEDIA : Z;
  XMLHTTPREQUEST : Z; OTHER : Z; WEBSOCKET : Z; FONT : Z; SUBDOCUMENT : Z;
  OBJECT : Z; OBJECT_SUBREQUEST : Z; WEBRTC : Z
}.

(** [adguard.rules.UrlFilterRule.options] *)
Record Options : Type := mkOptions {
  JSINJECT : Z; URLBLOCK : Z; GENERICBLOCK : Z; GENERICHIDE : Z; ELEMHIDE : Z
}.

(** The part of the [adguard] namespace the converter calls. *)
Record Adguard : Type := mkAdguard {
  toPunyCode : string -> string;              (* adguard.utils.url.toPunyCode *)
  createRule : string -> outcome (option Rule); (* adguard.rules.builder.createRule *)
  contentTypes : ContentTypes;
  options : Options
}.

(** The [trigger] object of an emitted entry; [url_filter] is the key
    ["url-filter"], and so on. *)
Record Trigger : Type := mkTrigger {
  url_filter : string;
  url_filter_is_case_sensitive : option bool;
  resource_type : option (list string);
  load_type : option (list string);
  if_domain : option (list string);
  unless_domain : option (list string)
}.

Record Action : Type := mkAction {
  action_type : string;
  selector : option string
}.

Record Entry : Type := mkEntry {
  trigger : Trigger;
  action : Action
}.

Definition set_url_filter (v : string) (t : Trigger) : Trigger :=
  mkTrigger v (url_filter_is_case_sensitive t) (resource_type t) (load_type t)
            (if_domain t) (unless_domain t).

Definition set_case_sensitive (v : option bool) (t : Trigger) : Trigger :=
  mkTrigger (url_filter t) v (resource_type t) (load_type t)
            (if_domain t) (unless_domain t).

Definition set_resource_type (v : option (list string)) (t : Trigger) : Trigger :=
  mkTrigger (url_filter t) (url_filter_is_case_sensitive t) v (load_type t)
            (if_domain t) (unless_domain t).

Definition set_load_type (v : option (list string)) (t : Trigger) : Trigger :=
  mkTrigger (url_filter t) (url_filter_is_case_sensitive t) (resource_type t) v
            (if_domain t) (unless_domain t).

Definition set_if_domain (v : option (list string)) (t : Trigger) : Trigger :=
  mkTrigger (url_filter t) (url_filter_is_case_sensitive t) (resource_type t)
            (load_type t) v (unless_domain t).

Definition set_unless_domain (v : option (list string)) (t : Trigger) : Trigger :=
  mkTrigger (url_filter t) (url_filter_is_case_sensitive t) (resource_type t)
            (load_type t) (if_domain t) v.

Definition with_trigger (f : Trigger -> Trigger) (e : Entry) : Entry :=
  mkEntry (f (trigger e)) (action e).

Definition set_action_type (v : string) (e : Entry) : Entry :=
  mkEntry (trigger e) (mkAction v (selector (action e))).

(** [array.push(x)] *)
Definition push {A : Type} (array : list A) (x : A) : list A :=
  (array ++ [x])%list.

(** An array that is present and not empty: [a && a.length > 0]. *)
Definition nonEmpty {A : Type} (a : option (list A)) : bool :=
  match a with
  | Some (_ :: _) => true
  | _ => false
  end.

(** An element of the array handed to [convertArray]: [null], a line of text,
    or an already parsed rule object. *)
Inductive RuleInput : Type :=
| InNull
| InText (text : string)
| InRule (rule : Rule).

(** ['' + ruleText] for such an element. *)
Definition inputToString (i : RuleInput) : string :=
  match i with
  | InNull => "null"
  | InText s => s
  | InRule r => ruleToString r
  end.

(** The grouped result of [convertLines]. *)
Record ContentBlocker : Type := mkContentBlocker {
  cssBlockingWide : list Entry;
  cssBlockingGenericDomainSensitive : list Entry;
  cssBlockingGenericHideExceptions : list Entry;
  cssBlockingDomainSensitive : list Entry;
  cssElemhide : list Entry;
  urlBlocking : list Entry;
  other : list Entry;
  important : list Entry;
  importantExceptions : list Entry;
  documentExceptions : list Entry;
  errors : list string
}.

(** The object [convertArray] returns; [converted] is the array that is then
    printed with [JSON.stringify]. *)
Record ConversionResult : Type := mkConversionResult {
  totalConvertedCount : nat;
  convertedCount : nat;
  errorsCount : nat;
  overLimit : bool;
  converted : list Entry
}.

(* ------------------------------------------------------------------ *)
(** * The converter *)
(* ------------------------------------------------------------------ *)

Section SafariContentBlockerConverter.

Variable adguard : Adguard.

(** Max number of CSS selectors per rule. *)
Definition MAX_SELECTORS_PER_WIDE_RULE : nat := 250.

Definition ANY_URL_TEMPLATES : list string := ["||*"; ""; "*"; "|*"].
Definition URL_FILTER_ANY_URL : string := "^[htpsw]+:\/\/".
Definition URL_FILTER_WS_ANY_URL : string := "^wss?:\/\/".
Definition URL_FILTER_CSS_RULES : string := ".*".
Definition URL_FILTER_REGEXP_START_URL : string :=
  URL_FILTER_ANY_URL ++ "([a-z0-9-]+\.)?".
Definition URL_FILTER_REGEXP_SEPARATOR : string := "[/:&?]?".

(** ** AGRuleConverter *)

(** [toPunyCode(d.toLowerCase())] *)
Definition punyLower (d : string) : string :=
  toPunyCode adguard (JsString.toLowerCase d).

(** The array walk of [parseDomains]: from the last element down to the first
    ([while (iDomains--)]), empty strings skipped. *)
Definition walkDomains (many : option (list string)) (acc : list string)
  : list string :=
  match many with
  | Some domains => fold_left (fun acc d => push acc (punyLower d))
                              (filter JsString.truthy (rev domains)) acc
  | None => acc
  end.

(** One side of [parseDomains]: the single domain when it is set, else the
    array. *)
Definition parseDomainSide (single : option string) (many : option (list string))
           (acc : list string) : list string :=
  match single with
  | Some d => if JsString.truthy d then push acc (punyLower d) else walkDomains many acc
  | None => walkDomains many acc
  end.

Definition parseDomains (rule : Rule) (included excluded : list string)
  : list string * list string :=
  (parseDomainSide (permittedDomain rule) (permittedDomains rule) included,
   parseDomainSide (restrictedDomain rule) (restrictedDomains rule) excluded).

Definition addThirdParty (t : Trigger) (rule : Rule) : Trigger :=
  if isCheckThirdParty rule
  then set_load_type
         (Some (if isThirdParty rule then ["third-party"] else ["first-party"])) t
  else t.

Definition addMatchCase (t : Trigger) (rule : Rule) : Trigger :=
  if isMatchCase rule then set_case_sensitive (Some true) t else t.

Definition writeDomainOptions (included excluded : list string) (t : Trigger)
  : outcome Trigger :=
  throwIf ((0 <? length included)%nat && (0 <? length excluded)%nat)
          "Safari does not support both permitted and restricted domains" ;;;
  let t1 := if (0 <? length included)%nat then set_if_domain (Some included) t else t in
  let t2 := if (0 <? length excluded)%nat then set_unless_domain (Some excluded) t1 else t1 in
  Ret t2.

Definition addDomainOptions (t : Trigger) (rule : Rule) : outcome Trigger :=
  let '(included, excluded) := parseDomains rule [] [] in
  writeDomainOptions included excluded t.

Definition setWhiteList (rule : Rule) (result : Entry) : Entry :=
  if whiteListRule rule then set_action_type "ignore-previous-rules" result
  else result.

Definition hasContentType (rule : Rule) (contentType : Z) : bool :=
  checkContentTypeMask rule contentType.

Definition isContentType (rule : Rule) (contentType : Z) : bool :=
  Z.eqb (permittedContentType rule) contentType.

Definition isSingleOption (rule : Rule) (option : Z) : bool :=
  Z.eqb (enabledOptions rule) option.

Definition pushIf {A : Type} (cond : bool) (x : A) (l : list A) : list A :=
  if cond then push l x else l.

Definition addResourceType (rule : Rule) (result : Entry) : outcome Entry :=
  let ct := contentTypes adguard in
  if Z.eqb (permittedContentType rule) (ALL ct)
     && Z.eqb (restrictedContentType rule) 0
  then Ret result
  else
    let types := [] in
    let types := pushIf (hasContentType rule (IMAGE ct)) "image" types in
    let types := pushIf (hasContentType rule (STYLESHEET ct)) "style-sheet" types in
    let types := pushIf (hasContentType rule (SCRIPT ct)) "script" types in
    let types := pushIf (hasContentType rule (MEDIA ct)) "media" types in
    let types := pushIf (hasContentType rule (XMLHTTPREQUEST ct)
                         || hasContentType rule (OTHER ct)
                         || hasContentType rule (WEBSOCKET ct)) "raw" types in
    let types := pushIf (hasContentType rule (FONT ct)) "font" types in
    let types := pushIf (hasContentType rule (SUBDOCUMENT ct)) "document" types in
    let types := if isBlockPopups rule then ["popup"] else types in
    throwIf (isContentType rule (OBJECT ct))
            "$object content type is not yet supported" ;;;
    throwIf (isContentType rule (OBJECT_SUBREQUEST ct))
            "$object_subrequest content type is not yet supported" ;;;
    throwIf (isContentType rule (WEBRTC ct))
            "$webrtc content type is not yet supported" ;;;
    throwIf (isSingleOption rule (JSINJECT (options adguard)))
            "$jsinject rules are ignored." ;;;
    throwIf (getReplace rule) "$replace rules are ignored." ;;;
    Ret (if (0 <? length types)%nat
         then with_trigger (set_resource_type (Some types)) result
         else result).

Definition startsAt0 (pat s : string) : bool :=
  match JsString.indexOf pat s with
  | Some O => true
  | _ => false
  end.

Definition createUrlFilterString (urlFilterRule : Rule) : string :=
  let urlRuleText := getUrlRuleText urlFilterRule in
  let isWebSocket :=
    Z.eqb (permittedContentType urlFilterRule) (WEBSOCKET (contentTypes adguard)) in
  if existsb (String.eqb urlRuleText) ANY_URL_TEMPLATES
  then (if isWebSocket then URL_FILTER_WS_ANY_URL else URL_FILTER_ANY_URL)
  else
    match isRegexRule urlFilterRule, urlRegExp urlFilterRule with
    | true, Some source => source
    | _, _ =>
        let urlRegExpSource := getUrlRegExpSource urlFilterRule in
        if negb (JsString.truthy urlRegExpSource) then URL_FILTER_ANY_URL
        else if isWebSocket
                && negb (startsAt0 "^" urlRegExpSource)
                && negb (startsAt0 "ws" urlRegExpSource)
        then URL_FILTER_WS_ANY_URL ++ ".*" ++ urlRegExpSource
        else urlRegExpSource
    end.

(** The first element of [startsWith] that is a prefix of [ruleText] gives
    [startIndex]; 0 when there is none. *)
Fixpoint firstPrefixLength (starts : list string) (ruleText : string) : nat :=
  match starts with
  | [] => 0
  | start :: rest =>
      if JsString.startWith ruleText start then String.length start
      else firstPrefixLength rest ruleText
  end.

(** The first element of [contains] found in [ruleText] from [startIndex] on
    gives [symbolIndex]; [None] is -1. *)
Fixpoint firstSymbolIndex (contains : list string) (ruleText : string)
         (startIndex : nat) : option nat :=
  match contains with
  | [] => None
  | contain :: rest =>
      match JsString.indexOfFrom contain ruleText startIndex with
      | Some index => Some index
      | None => firstSymbolIndex rest ruleText startIndex
      end
  end.

(** [/^[a-zA-Z0-9][a-zA-Z0-9-.]*[a-zA-Z0-9]\.[a-zA-Z-]{2,}$/] *)
Definition domainNameRegex : Regex.regex :=
  let alnum := Regex.Cls Regex.alnum in
  let inner := Regex.Cls (fun c => Regex.alnum c || Regex.oneOf "-." c) in
  let tld := Regex.Cls (fun c => JsString.isLower c || JsString.isUpper c
                                 || Ascii.eqb c "-") in
  Regex.Seq alnum
    (Regex.Seq (Regex.Star inner)
       (Regex.Seq alnum
          (Regex.Seq (Regex.chr ".")
             (Regex.Seq tld (Regex.Seq tld (Regex.Star tld)))))).

Record ParsedDomain : Type := mkParsedDomain {
  domain : string;
  path : option string
}.

Definition parseRuleDomain (ruleText : string) : option ParsedDomain :=
  let startsWith := ["http://www."; "https://www."; "http://"; "https://"; "||"; "//"] in
  let contains := ["/"; "^"] in
  let startIndex := firstPrefixLength startsWith ruleText in
  let exceptRule := "domain=" in
  let startIndex :=
    match JsString.indexOf exceptRule ruleText, JsString.indexOf "$" ruleText with
    | Some domainIndex, Some _ => domainIndex + String.length exceptRule
    | _, _ => startIndex
    end in
  let symbolIndex := firstSymbolIndex contains ruleText startIndex in
  let domain :=
    match symbolIndex with
    | None => JsString.skip startIndex ruleText
    | Some i => JsString.substring2 startIndex i ruleText
    end in
  let path :=
    match symbolIndex with
    | None => None
    | Some i => Some (JsString.skip i ruleText)
    end in
  if negb (Regex.matches domainNameRegex domain) then None
  else Some (mkParsedDomain (JsString.toLowerCase (toPunyCode adguard domain)) path).

Definition convertCssFilterRule (rule : Rule) : outcome Entry :=
  throwIf (isInjectRule rule)
          ("CSS-injection rule " ++ ruleText rule ++ " cannot be converted") ;;;
  throwIf (extendedCss rule)
          ("Extended CSS rule " ++ ruleText rule ++ " cannot be converted") ;;;
  let result :=
    mkEntry (mkTrigger URL_FILTER_CSS_RULES None None None None None)
            (mkAction "css-display-none" (Some (cssSelector rule))) in
  let result := setWhiteList rule result in
  t <- addDomainOptions (trigger result) rule ;;
  Ret (mkEntry t (action result)).

Definition listHas (x : string) (l : list string) : bool :=
  existsb (String.eqb x) l.

Definition validateUrlBlockingRule (rule : Entry) : outcome unit :=
  throwIf
    (String.eqb (action_type (action rule)) "block"
     && match resource_type (trigger rule) with
        | Some types => listHas "document" types
        | None => false
        end
     && match if_domain (trigger rule) with Some _ => false | None => true end
     && match load_type (trigger rule) with
        | Some l => negb (listHas "third-party" l)
        | None => true
        end)
    "Document blocking rules are allowed only along with third-party or if-domain modifiers".

Definition isUrlBlockRule (r : Rule) : bool :=
  isSingleOption r (URLBLOCK (options adguard))
  || isSingleOption r (GENERICBLOCK (options adguard)).

Definition isCssExceptionRule (r : Rule) : bool :=
  isSingleOption r (GENERICHIDE (options adguard))
  || isSingleOption r (ELEMHIDE (options adguard)).

(** [path !== null && path !== "^" && path !== "/"] *)
Definition nonTrivialPath (p : option string) : bool :=
  match p with
  | Some q => negb (String.eqb q "^") && negb (String.eqb q "/")
  | None => false
  end.

Definition checkWhiteListExceptions (rule : Rule) (result : Entry) : outcome Entry :=
  if whiteListRule rule then
    let documentRule := isDocumentWhiteList rule in
    if documentRule || isUrlBlockRule rule || isCssExceptionRule rule then
      let result :=
        if documentRule then with_trigger (set_resource_type None) result
        else result in
      match parseRuleDomain (getUrlRuleText rule) with
      | None => Ret result
      | Some parseDomainResult =>
          if nonTrivialPath (path parseDomainResult) then Ret result
          else
            let domain := domain parseDomainResult in
            let included := [domain] in
            let excluded := [] in
            t <- writeDomainOptions included excluded (trigger result) ;;
            Ret (mkEntry (set_resource_type None (set_url_filter URL_FILTER_ANY_URL t))
                         (action result))
      end
    else Ret result
  else Ret result.

(** The five patterns [validateRegExp] searches for. *)

(** [/\{[0-9,]+\}/] *)
Definition reDigitBraces : Regex.regex :=
  Regex.Seq (Regex.chr "{")
    (Regex.Seq (Regex.plus (Regex.Cls (fun c => JsString.isDigit c || Ascii.eqb c ",")))
               (Regex.chr "}")).

(** [/[^\\]+\|+\S*/] *)
Definition rePipe : Regex.regex :=
  Regex.Seq (Regex.plus (Regex.Cls Regex.notBackslash))
    (Regex.Seq (Regex.plus (Regex.chr "|")) (Regex.Star (Regex.Cls Regex.nonSpace))).

(** [/[^\x00-\x7F]/] *)
Definition reNonAscii : Regex.regex :=
  Regex.Cls (fun c => negb (Nat.leb (JsString.code c) 127)).

(** [/\(\?!.*\)/] *)
Definition reNegativeLookahead : Regex.regex :=
  Regex.Seq (Regex.lit "(?!")
    (Regex.Seq (Regex.Star (Regex.Cls Regex.dot)) (Regex.chr ")")).

(** [/[^\\]\\[bBdDfnrsStvwW]/] *)
Definition reMetaCharacter : Regex.regex :=
  Regex.Seq (Regex.Cls Regex.notBackslash)
    (Regex.Seq (Regex.chr "\") (Regex.Cls (Regex.oneOf "bBdDfnrsStvwW"))).

Definition MSG_DIGIT_BRACES : string :=
  "Safari doesn't support '{digit}' in regular expressions".
Definition MSG_PIPE : string :=
  "Safari doesn't support '|' in regular expressions".
Definition MSG_NON_ASCII : string :=
  "Safari doesn't support non-ASCII characters in regular expressions".
Definition MSG_NEGATIVE_LOOKAHEAD : string :=
  "Safari doesn't support negative lookahead in regular expressions".
Definition MSG_META_CHARACTER : string :=
  "Safari doesn't support metacharacters in regular expressions".

Definition validateRegExp (regExp : string) : outcome unit :=
  throwIf (Regex.search reDigitBraces regExp) MSG_DIGIT_BRACES ;;;
  throwIf (Regex.search rePipe regExp) MSG_PIPE ;;;
  throwIf (Regex.search reNonAscii regExp) MSG_NON_ASCII ;;;
  throwIf (Regex.search reNegativeLookahead regExp) MSG_NEGATIVE_LOOKAHEAD ;;;
  throwIf (Regex.search reMetaCharacter regExp) MSG_META_CHARACTER.

Definition convertUrlFilterRule (rule : Rule) : outcome Entry :=
  throwIf (isCspRule rule) "CSP rules are not supported" ;;;
  let urlFilter := createUrlFilterString rule in
  validateRegExp urlFilter ;;;
  let result :=
    mkEntry (mkTrigger urlFilter None None None None None)
            (mkAction "block" None) in
  let result := setWhiteList rule result in
  result <- addResourceType rule result ;;
  let t := addThirdParty (trigger result) rule in
  let t := addMatchCase t rule in
  t <- addDomainOptions t rule ;;
  let result := mkEntry t (action result) in
  result <- checkWhiteListExceptions rule result ;;
  validateUrlBlockingRule result ;;;
  Ret result.

(** ** The pipeline *)

(** [if (errors) { errors.push(message); }] *)
Definition pushError (message : string) (errors : option (list string))
  : option (list string) :=
  match errors with
  | Some l => Some (push l message)
  | None => None
  end.

Definition CR_LF : string := String (ascii_of_nat 13) (String (ascii_of_nat 10) EmptyString).
Definition LF : string := String (ascii_of_nat 10) EmptyString.

Definition convertAGRuleToCB (rule : option Rule) : outcome Entry :=
  match rule with
  | None => Throw (Error "Invalid argument rule")
  | Some rule =>
      match ruleClass rule with
      | CssFilterRule => convertCssFilterRule rule
      | UrlFilterRule => convertUrlFilterRule rule
      | OtherRule => Throw (Error ("Rule is not supported: " ++ ruleToString rule))
      end
  end.

(** The lines the parser passes over: [null], the empty line, a comment, a line
    that starts with a space, a line with [" - "] past its first position. *)
Definition isIgnoredText (ruleText : string) : bool :=
  String.eqb ruleText ""
  || startsAt0 "!" ruleText
  || startsAt0 " " ruleText
  || match JsString.indexOf " - " ruleText with
     | Some (S _) => true
     | _ => false
     end.

(** The body of [parseAGRule]'s [try] block. *)
Definition parseAGRuleBody (ruleText : RuleInput) : outcome (option Rule) :=
  match ruleText with
  | InNull => Ret None
  | InRule _ => Throw (TypeError "ruleText.indexOf is not a function")
  | InText text =>
      if isIgnoredText text then Ret None
      else
        agRule <- createRule adguard text ;;
        match agRule with
        | None => Throw (Error ("Cannot create rule from: " ++ text))
        | Some r => Ret (Some r)
        end
  end.

(** The message of [parseAGRule]'s [catch] block. *)
Definition creatingErrorMessage (ruleText : RuleInput) (ex : exn) : string :=
  let message := "Error creating rule from: " ++ inputToString ruleText
                 ++ " cause:" ++ LF ++ exnToString ex in
  inputToString ruleText ++ CR_LF ++ message ++ CR_LF.

(** The message of [convertLine]'s [catch] block. *)
Definition convertingErrorMessage (ruleText : RuleInput) (ex : exn) : string :=
  let message := "Error converting rule from: " ++ inputToString ruleText
                 ++ " cause:" ++ LF ++ exnToString ex in
  inputToString ruleText ++ CR_LF ++ message ++ CR_LF.

Definition parseAGRule (ruleText : RuleInput) (errors : option (list string))
  : option Rule * option (list string) :=
  match parseAGRuleBody ruleText with
  | Ret agRule => (agRule, errors)
  | Throw ex => (None, pushError (creatingErrorMessage ruleText ex) errors)
  end.

Definition convertLine (ruleText : RuleInput) (errors : option (list string))
  : option Entry * option (list string) :=
  let '(agRule, errors) := parseAGRule ruleText errors in
  match convertAGRuleToCB agRule with
  | Ret result => (Some result, errors)
  | Throw ex => (None, pushError (convertingErrorMessage ruleText ex) errors)
  end.

(** The text [convertAGRule] reports for a rejected rule. *)
Definition conversionErrorMessage (rule : Rule) (ex : exn) : string :=
  "Error converting rule from: "
  ++ (if JsString.truthy (ruleText rule) then ruleText rule else ruleToString rule)
  ++ " cause:" ++ LF ++ exnToString ex ++ CR_LF.

Definition convertAGRule (rule : Rule) (errors : list string)
  : option Entry * list string :=
  match convertAGRuleToCB (Some rule) with
  | Ret result => (Some result, errors)
  | Throw ex => (None, push errors (conversionErrorMessage rule ex))
  end.

(** [arrayToMap(array, prop, prop2)]: the elements grouped by the string
    [key el = el[prop][prop2]], each group in array order.  The keys are kept
    in the order of their first element; [for ... in] lists keys that look
    like array indices before the others, which does not show in the result of
    [applyCssExceptions], where the groups of two selectors share no entry. *)
Fixpoint mapPush {A : Type} (property : string) (el : A)
         (map : list (string * list A)) : list (string * list A) :=
  match map with
  | [] => [(property, [el])]
  | (k, els) :: rest =>
      if String.eqb k property then (k, push els el) :: rest
      else (k, els) :: mapPush property el rest
  end.

Definition arrayToMap {A : Type} (key : A -> string) (array : list A)
  : list (string * list A) :=
  fold_left (fun map el => mapPush (key el) el map) array [].

Fixpoint mapGet {A : Type} (property : string) (map : list (string * list A))
  : option (list A) :=
  match map with
  | [] => None
  | (k, els) :: rest => if String.eqb k property then Some els else mapGet property rest
  end.

(** [el.action.selector] as a property key. *)
Definition selectorKey (e : Entry) : string :=
  match selector (action e) with
  | Some s => s
  | None => "undefined"
  end.

Definition addWildcard (array : option (list string)) : option (list string) :=
  match array with
  | Some l => Some (map (fun d => "*" ++ d) l)
  | None => None
  end.

Definition applyDomainWildcards (rules : list Entry) : list Entry :=
  map (fun rule =>
         with_trigger (fun t =>
           set_unless_domain (addWildcard (unless_domain t))
             (set_if_domain (addWildcard (if_domain t)) t)) rule)
      rules.

(** [domain.indexOf(permitted) >= 0] *)
Definition isSubstringOf (permitted domain : string) : bool :=
  match JsString.indexOf permitted domain with
  | Some _ => true
  | None => false
  end.

Definition pushExceptionDomain (domain : string) (rule : Entry) : Entry :=
  let applicable :=
    match if_domain (trigger rule) with
    | Some (p :: ps) => existsb (fun permitted => isSubstringOf permitted domain) (p :: ps)
    | _ => true
    end in
  if negb applicable then rule
  else
    let ruleRestrictedDomains :=
      match unless_domain (trigger rule) with
      | Some l => l
      | None => []
      end in
    with_trigger (set_unless_domain (Some (push ruleRestrictedDomains domain))) rule.

(** The entries of [cssBlocking] are shared between the array and [rulesMap];
    the array is the store and [rulesMap] holds positions in it. *)
Fixpoint update {A : Type} (i : nat) (f : A -> A) (store : list A) : list A :=
  match store, i with
  | [], _ => []
  | x :: rest, O => f x :: rest
  | x :: rest, S j => x :: update j f rest
  end.

(** [selectorExceptions.forEach(iterator)]'s [iterator], on the hide entries at
    the positions [selectorRules]. *)
Definition exceptionIterator (selectorRules : list nat) (store : list Entry)
           (exc : Entry) : list Entry :=
  fold_left
    (fun store idx =>
       match if_domain (trigger exc) with
       | Some exceptionDomains =>
           fold_left (fun store domain => update idx (pushExceptionDomain domain) store)
                     exceptionDomains store
       | None => store
       end)
    selectorRules store.

Definition bothDomains (r : Entry) : bool :=
  nonEmpty (if_domain (trigger r)) && nonEmpty (unless_domain (trigger r)).

Definition applyCssExceptions (cssBlocking cssExceptions : list Entry) : list Entry :=
  let rulesMap :=
    arrayToMap (fun i => selectorKey (nth i cssBlocking (mkEntry (mkTrigger "" None None None None None) (mkAction "" None))))
               (seq 0 (length cssBlocking)) in
  let exceptionRulesMap := arrayToMap selectorKey cssExceptions in
  let store :=
    fold_left
      (fun store '(selector, selectorExceptions) =>
         match mapGet selector rulesMap with
         | Some selectorRules =>
             fold_left (exceptionIterator selectorRules) selectorExceptions store
         | None => store
         end)
      exceptionRulesMap cssBlocking in
  filter (fun r => negb (bothDomains r)) store.

(** [rule.action.selector] as [join] prints it. *)
Definition joinedSelector (e : Entry) : string :=
  match selector (action e) with
  | Some s => s
  | None => ""
  end.

Record CssCompact : Type := mkCssCompact {
  compactWide : list Entry;
  compactDomainSensitive : list Entry;
  compactGenericDomainSensitive : list Entry
}.

(** [addWideRule]: one entry for the selectors gathered so far. *)
Definition addWideRule (wideSelectors : list string) (cssBlockingWide : list Entry)
  : list Entry :=
  match wideSelectors with
  | [] => cssBlockingWide
  | _ =>
      push cssBlockingWide
        (mkEntry (mkTrigger URL_FILTER_CSS_RULES None None None None None)
                 (mkAction "css-display-none" (Some (String.concat ", " wideSelectors))))
  end.

(** The loop of [compactCssRules]; the state is the three result arrays and
    [wideSelectors]. *)
Fixpoint compactLoop (cssBlocking : list Entry) (acc : CssCompact)
         (wideSelectors : list string) : CssCompact * list string :=
  match cssBlocking with
  | [] => (acc, wideSelectors)
  | rule :: rest =>
      match if_domain (trigger rule), unless_domain (trigger rule) with
      | Some _, _ =>
          compactLoop rest
            (mkCssCompact (compactWide acc) (push (compactDomainSensitive acc) rule)
                          (compactGenericDomainSensitive acc))
            wideSelectors
      | None, Some _ =>
          compactLoop rest
            (mkCssCompact (compactWide acc) (compactDomainSensitive acc)
                          (push (compactGenericDomainSensitive acc) rule))
            wideSelectors
      | None, None =>
          let wideSelectors := push wideSelectors (joinedSelector rule) in
          if (MAX_SELECTORS_PER_WIDE_RULE <=? length wideSelectors)%nat
          then compactLoop rest
                 (mkCssCompact (addWideRule wideSelectors (compactWide acc))
                               (compactDomainSensitive acc)
                               (compactGenericDomainSensitive acc))
                 []
          else compactLoop rest acc wideSelectors
      end
  end.

Definition compactCssRules (cssBlocking : list Entry) : CssCompact :=
  let '(acc, wideSelectors) := compactLoop cssBlocking (mkCssCompact [] [] []) [] in
  mkCssCompact (addWideRule wideSelectors (compactWide acc))
               (compactDomainSensitive acc)
               (compactGenericDomainSensitive acc).

(** The state of the first loop of [convertLines]. *)
Record Collected : Type := mkCollected {
  agRules : list Rule;
  badFilterExceptions : list string;
  parseErrors : list string
}.

Definition collectRule (st : Collected) (element : RuleInput) : Collected :=
  let '(rule, errors) :=
    match element with
    | InRule r =>
        if JsString.truthy (ruleText r) then (Some r, Some (parseErrors st))
        else parseAGRule element (Some (parseErrors st))
    | _ => parseAGRule element (Some (parseErrors st))
    end in
  let errors := match errors with Some l => l | None => parseErrors st end in
  match rule with
  | Some rule =>
      if isBadFilter rule
      then mkCollected (agRules st) (push (badFilterExceptions st) (badFilter rule)) errors
      else mkCollected (push (agRules st) rule) (badFilterExceptions st) errors
  | None => mkCollected (agRules st) (badFilterExceptions st) errors
  end.

Definition collectRules (rules : list RuleInput) : Collected :=
  fold_left collectRule rules (mkCollected [] [] []).

(** The state of the second loop: the content blocker under construction and
    the two temporary arrays. *)
Record Grouping : Type := mkGrouping {
  contentBlocker : ContentBlocker;
  cssBlocking : list Entry;
  cssExceptions : list Entry
}.

Definition emptyContentBlocker : ContentBlocker :=
  mkContentBlocker [] [] [] [] [] [] [] [] [] [] [].

Definition set_errors (v : list string) (cb : ContentBlocker) : ContentBlocker :=
  mkContentBlocker (cssBlockingWide cb) (cssBlockingGenericDomainSensitive cb)
    (cssBlockingGenericHideExceptions cb) (cssBlockingDomainSensitive cb)
    (cssElemhide cb) (urlBlocking cb) (other cb) (important cb)
    (importantExceptions cb) (documentExceptions cb) v.

Definition push_cssBlockingGenericHideExceptions (item : Entry) (cb : ContentBlocker)
  : ContentBlocker :=
  mkContentBlocker (cssBlockingWide cb) (cssBlockingGenericDomainSensitive cb)
    (push (cssBlockingGenericHideExceptions cb) item) (cssBlockingDomainSensitive cb)
    (cssElemhide cb) (urlBlocking cb) (other cb) (important cb)
    (importantExceptions cb) (documentExceptions cb) (errors cb).

Definition push_cssElemhide (item : Entry) (cb : ContentBlocker) : ContentBlocker :=
  mkContentBlocker (cssBlockingWide cb) (cssBlockingGenericDomainSensitive cb)
    (cssBlockingGenericHideExceptions cb) (cssBlockingDomainSensitive cb)
    (push (cssElemhide cb) item) (urlBlocking cb) (other cb) (important cb)
    (importantExceptions cb) (documentExceptions cb) (errors cb).

Definition push_urlBlocking (item : Entry) (cb : ContentBlocker) : ContentBlocker :=
  mkContentBlocker (cssBlockingWide cb) (cssBlockingGenericDomainSensitive cb)
    (cssBlockingGenericHideExceptions cb) (cssBlockingDomainSensitive cb)
    (cssElemhide cb) (push (urlBlocking cb) item) (other cb) (important cb)
    (importantExceptions cb) (documentExceptions cb) (errors cb).

Definition push_other (item : Entry) (cb : ContentBlocker) : ContentBlocker :=
  mkContentBlocker (cssBlockingWide cb) (cssBlockingGenericDomainSensitive cb)
    (cssBlockingGenericHideExceptions cb) (cssBlockingDomainSensitive cb)
    (cssElemhide cb) (urlBlocking cb) (push (other cb) item) (important cb)
    (importantExceptions cb) (documentExceptions cb) (errors cb).

Definition push_important (item : Entry) (cb : ContentBlocker) : ContentBlocker :=
  mkContentBlocker (cssBlockingWide cb) (cssBlockingGenericDomainSensitive cb)
    (cssBlockingGenericHideExceptions cb) (cssBlockingDomainSensitive cb)
    (cssElemhide cb) (urlBlocking cb) (other cb) (push (important cb) item)
    (importantExceptions cb) (documentExceptions cb) (errors cb).

Definition push_importantExceptions (item : Entry) (cb : ContentBlocker)
  : ContentBlocker :=
  mkContentBlocker (cssBlockingWide cb) (cssBlockingGenericDomainSensitive cb)
    (cssBlockingGenericHideExceptions cb) (cssBlockingDomainSensitive cb)
    (cssElemhide cb) (urlBlocking cb) (other cb) (important cb)
    (push (importantExceptions cb) item) (documentExceptions cb) (errors cb).

Definition push_documentExceptions (item : Entry) (cb : ContentBlocker)
  : ContentBlocker :=
  mkContentBlocker (cssBlockingWide cb) (cssBlockingGenericDomainSensitive cb)
    (cssBlockingGenericHideExceptions cb) (cssBlockingDomainSensitive cb)
    (cssElemhide cb) (urlBlocking cb) (other cb) (important cb)
    (importantExceptions cb) (push (documentExceptions cb) item) (errors cb).

Definition inContentBlocker (f : ContentBlocker -> ContentBlocker) (g : Grouping)
  : Grouping :=
  mkGrouping (f (contentBlocker g)) (cssBlocking g) (cssExceptions g).

Definition isType (item : Entry) (t : string) : bool :=
  String.eqb (action_type (action item)) t.

(** The chain of [if]/[else if] that files a converted [item]. *)
Definition routeItem (agRule : Rule) (item : Entry) (g : Grouping) : Grouping :=
  if isType item "block" then
    if isImportant agRule then inContentBlocker (push_important item) g
    else inContentBlocker (push_urlBlocking item) g
  else if isType item "css-display-none" then
    mkGrouping (contentBlocker g) (push (cssBlocking g) item) (cssExceptions g)
  else if isType item "ignore-previous-rules"
          && match selector (action item) with
             | Some s => JsString.truthy s
             | None => false
             end then
    mkGrouping (contentBlocker g) (cssBlocking g) (push (cssExceptions g) item)
  else if isType item "ignore-previous-rules"
          && isSingleOption agRule (GENERICHIDE (options adguard)) then
    inContentBlocker (push_cssBlockingGenericHideExceptions item) g
  else if isType item "ignore-previous-rules"
          && isSingleOption agRule (ELEMHIDE (options adguard)) then
    inContentBlocker (push_cssElemhide item) g
  else if isImportant agRule then inContentBlocker (push_importantExceptions item) g
  else if isDocumentWhiteList agRule then inContentBlocker (push_documentExceptions item) g
  else inContentBlocker (push_other item) g.

(** One turn of the second loop. *)
Definition groupRule (badFilterExceptions : list string) (g : Grouping) (agRule : Rule)
  : Grouping :=
  if listHas (ruleText agRule) badFilterExceptions then g
  else
    let '(item, errors) := convertAGRule agRule (errors (contentBlocker g)) in
    let g := inContentBlocker (set_errors errors) g in
    match item with
    | Some item => routeItem agRule item g
    | None => g
    end.

Definition groupRules (badFilterExceptions : list string) (agRules : list Rule)
           (g : Grouping) : Grouping :=
  fold_left (groupRule badFilterExceptions) agRules g.

(** The grouping the second loop starts from: empty categories, and the errors
    of the first loop. *)
Definition initialGrouping (parseErrors : list string) : Grouping :=
  mkGrouping (set_errors parseErrors emptyContentBlocker) [] [].

(** The end of [convertLines], after the two loops: the CSS exceptions are
    applied, the CSS rules compacted, and the three CSS categories stored. *)
Definition assembleContentBlocker (g : Grouping) (optimize : bool) : ContentBlocker :=
  let cb := contentBlocker g in
  let cssBlocking := applyCssExceptions (cssBlocking g) (cssExceptions g) in
  let cssCompact := compactCssRules cssBlocking in
  mkContentBlocker
    (if negb optimize then compactWide cssCompact else cssBlockingWide cb)
    (compactGenericDomainSensitive cssCompact)
    (cssBlockingGenericHideExceptions cb)
    (compactDomainSensitive cssCompact)
    (cssElemhide cb) (urlBlocking cb) (other cb) (important cb)
    (importantExceptions cb) (documentExceptions cb) (errors cb).

Definition convertLines (rules : list RuleInput) (optimize : bool) : ContentBlocker :=
  let collected := collectRules rules in
  let g :=
    groupRules (badFilterExceptions collected) (agRules collected)
               (initialGrouping (parseErrors collected)) in
  assembleContentBlocker g optimize.

(** The ten [concat] calls of [createConversionResult]. *)
Definition concatCategories (cb : ContentBlocker) : list Entry :=
  (((((((((([] ++ cssBlockingWide cb)
            ++ cssBlockingGenericDomainSensitive cb)
           ++ cssBlockingGenericHideExceptions cb)
          ++ cssBlockingDomainSensitive cb)
         ++ cssElemhide cb)
        ++ urlBlocking cb)
       ++ other cb)
      ++ important cb)
     ++ importantExceptions cb)
    ++ documentExceptions cb)%list.

(** [limit && limit > 0 && converted.length > limit]; an absent limit is
    [None]. *)
Definition limitExceeded (limit : option Z) (len : nat) : bool :=
  match limit with
  | Some l => negb (Z.eqb l 0) && Z.ltb 0 l && Z.ltb l (Z.of_nat len)
  | None => false
  end.

Definition Z_to_string (z : Z) : string :=
  match z with
  | Z0 => "0"
  | Zpos p => NilEmpty.string_of_uint (Pos.to_uint p)
  | Zneg p => "-" ++ NilEmpty.string_of_uint (Pos.to_uint p)
  end.

Definition limitMessage (limit : option Z) : string :=
  match limit with
  | Some l => Z_to_string l ++ " limit is achieved. Next rules will be ignored."
  | None => ""
  end.

(** [createConversionResult]; the second component is [contentBlocker.errors]
    after the call. *)
Definition createConversionResult (contentBlocker : ContentBlocker) (limit : option Z)
  : ConversionResult * list string :=
  let converted := concatCategories contentBlocker in
  let convertedLength := length converted in
  let over := limitExceeded limit (length converted) in
  let errors :=
    if over then push (errors contentBlocker) (limitMessage limit)
    else errors contentBlocker in
  let converted :=
    if over then firstn (Z.to_nat (match limit with Some l => l | None => 0%Z end)) converted
    else converted in
  let converted := applyDomainWildcards converted in
  (mkConversionResult convertedLength (length converted) (length errors) over converted,
   errors).

(** [convertArray]; [None] for the array is [null], [None] for the result is
    the returned [null]. *)
Definition convertArray (rules : option (list RuleInput)) (limit : option Z)
           (optimize : bool) : option ConversionResult :=
  match rules with
  | None => None
  | Some [] => None
  | Some rules =>
      let contentBlocker := convertLines rules optimize in
      Some (fst (createConversionResult contentBlocker limit))
  end.


(** ** Vocabulary of the properties *)

(** The domains of a possibly absent domain array. *)
Definition domainsOf (array : option (list string)) : list string :=
  match array with
  | Some l => l
  | None => []
  end.

(** The inputs that [parseAGRule] passes over without calling the builder. *)
Definition ignoredInput (i : RuleInput) : Prop :=
  i = InNull
  \/ i = InText ""
  \/ (exists rest, i = InText (String "!" rest))
  \/ (exists rest, i = InText (String " " rest))
  \/ (exists before after, i = InText (before ++ " - " ++ after)).

(** What [convertLine] reports for an input that gave no rule. *)
Definition invalidArgumentMessage (i : RuleInput) : string :=
  convertingErrorMessage i (Error "Invalid argument rule").

(** The input element [element] reaches the pipeline as the rule [rule]: it is
    the rule object itself, or a line the builder turns into [rule]. *)
Definition yieldsRule (element : RuleInput) (rule : Rule) : Prop :=
  (element = InRule rule /\ JsString.truthy (ruleText rule) = true)
  \/ (exists text, element = InText text
                   /\ isIgnoredText text = false
                   /\ createRule adguard text = Ret (Some rule)).

(** The rules the second loop hands to [convertAGRule]: those of [agRules]
    whose text no [$badfilter] rule names. *)
Definition translatedRules (rules : list RuleInput) : list Rule :=
  let collected := collectRules rules in
  filter (fun agRule => negb (listHas (ruleText agRule) (badFilterExceptions collected)))
         (agRules collected).

(** Two states of the first loop, put end to end. *)
Definition appendCollected (a b : Collected) : Collected :=
  mkCollected (agRules a ++ agRules b)
              (badFilterExceptions a ++ badFilterExceptions b)
              (parseErrors a ++ parseErrors b).

(** A grouping with its errors replaced. *)
Definition withErrors (errors : list string) (g : Grouping) : Grouping :=
  inContentBlocker (set_errors errors) g.

(** The errors one turn of the second loop adds. *)
Definition groupErrors (badFilterExceptions : list string) (agRule : Rule)
  : list string :=
  if listHas (ruleText agRule) badFilterExceptions then []
  else match convertAGRuleToCB (Some agRule) with
       | Ret _ => []
       | Throw ex => [conversionErrorMessage agRule ex]
       end.

(** [regExp] matches one of the patterns of [validateRegExp], whose message is
    [reason]. *)
Inductive forbiddenBy (regExp : string) : string -> Prop :=
| forbidden_digit_braces :
    Regex.search reDigitBraces regExp = true -> forbiddenBy regExp MSG_DIGIT_BRACES
| forbidden_pipe :
    Regex.search rePipe regExp = true -> forbiddenBy regExp MSG_PIPE
| forbidden_non_ascii :
    Regex.search reNonAscii regExp = true -> forbiddenBy regExp MSG_NON_ASCII
| forbidden_negative_lookahead :
    Regex.search reNegativeLookahead regExp = true ->
    forbiddenBy regExp MSG_NEGATIVE_LOOKAHEAD
| forbidden_meta_character :
    Regex.search reMetaCharacter regExp = true -> forbiddenBy regExp MSG_META_CHARACTER.

Definition matchesForbiddenPattern (regExp : string) : bool :=
  Regex.search reDigitBraces regExp
  || Regex.search rePipe regExp
  || Regex.search reNonAscii regExp
  || Regex.search reNegativeLookahead regExp
  || Regex.search reMetaCharacter regExp.

(** The ten categories of a content blocker, without its errors. *)
Definition categories (cb : ContentBlocker) : list (list Entry) :=
  [cssBlockingWide cb; cssBlockingGenericDomainSensitive cb;
   cssBlockingGenericHideExceptions cb; cssBlockingDomainSensitive cb;
   cssElemhide cb; urlBlocking cb; other cb; important cb;
   importantExceptions cb; documentExceptions cb].

(** The wide entry [addWideRule] builds for one batch of selectors. *)
Definition wideEntry (batch : list string) : Entry :=
  mkEntry (mkTrigger URL_FILTER_CSS_RULES None None None None None)
          (mkAction "css-display-none" (Some (String.concat ", " batch))).

(** The selectors [compactCssRules] gathers: those of the entries that have
    neither an if-domain nor an unless-domain key, in array order. *)
Fixpoint wideSelectorsOf (cssBlocking : list Entry) : list string :=
  match cssBlocking with
  | [] => []
  | rule :: rest =>
      match if_domain (trigger rule), unless_domain (trigger rule) with
      | None, None => joinedSelector rule :: wideSelectorsOf rest
      | _, _ => wideSelectorsOf rest
      end
  end.

(** Commas inside the selectors of a batch. *)
Definition commasWithin (batch : list string) : nat :=
  fold_right (fun s n => JsString.countChar "," s + n) 0 batch.

(** The array the entries are cut to when the limit is exceeded:
    [converted.slice(0, limit)]. *)
Definition truncateTo (limit : option Z) (converted : list Entry) : list Entry :=
  if limitExceeded limit (length converted)
  then firstn (Z.to_nat (match limit with Some l => l | None => 0%Z end)) converted
  else converted.

End SafariContentBlockerConverter.

(* ------------------------------------------------------------------ *)
(** * Sample environment and rules *)
(* ------------------------------------------------------------------ *)

Module Sample.

(** Sample values for the content-type and option bit masks. *)
Definition contentTypes : ContentTypes :=
  mkContentTypes 8191 4 8 2 256 64 1 1024 512 32 16 128 2048.

Definition options : Options := mkOptions 4 2 32 16 1.

(** The option mask of a [$document] exception. *)
Definition DOCUMENT_WHITELIST : Z := 15.

(** An environment whose builder knows no rule text and whose Punycode
    conversion is the identity, as it is on ASCII host names. *)
Definition adguard : Adguard :=
  mkAdguard (fun d => d) (fun _ => Ret None) contentTypes options.

(** The content-type test of a url rule with the permitted mask [permitted]. *)
Definition maskTest (permitted : Z) (contentType : Z) : bool :=
  negb (Z.eqb (Z.land permitted contentType) 0).

(** A plain blocking url rule: [text] is the rule, [urlText] its url part and
    [source] the regular expression built from it. *)
Definition urlRule (text urlText source : string) : Rule :=
  mkRule UrlFilterRule text text false false false "" None None None None
         "" false false
         (ALL contentTypes) 0 0 (maskTest (ALL contentTypes))
         false false false false false false false
         urlText false None source.

(** An element-hiding rule [##selector] (or [#@#selector] when [white]) for
    the domains [permitted]. *)
Definition cssRule (text : string) (white : bool) (permitted : option (list string))
           (sel : string) : Rule :=
  mkRule CssFilterRule text text white false false "" None permitted None None
         sel false false
         0 0 0 (fun _ => false)
         false false false false false false false
         "" false None "".

(** [@@||example.com^$document,domain=~foo.com] *)
Definition documentException : Rule :=
  mkRule UrlFilterRule "@@||example.com^$document,domain=~foo.com"
         "@@||example.com^$document,domain=~foo.com"
         true false false "" None None (Some "foo.com") None
         "" false false
         (ALL contentTypes) 0 DOCUMENT_WHITELIST (maskTest (ALL contentTypes))
         false false false false false false true
         "||example.com^" false None
         "^[htpsw]+:\/\/([a-z0-9-]+\.)?example\.com[/:&?]?".

(** [@@||example.com^$document] *)
Definition plainDocumentException : Rule :=
  mkRule UrlFilterRule "@@||example.com^$document" "@@||example.com^$document"
         true false false "" None None None None
         "" false false
         (ALL contentTypes) 0 DOCUMENT_WHITELIST (maskTest (ALL contentTypes))
         false false false false false false true
         "||example.com^" false None
         "^[htpsw]+:\/\/([a-z0-9-]+\.)?example\.com[/:&?]?".

(** [||example.com^] and [||example.org^] *)
Definition blockCom : Rule :=
  urlRule "||example.com^" "||example.com^"
          "^[htpsw]+:\/\/([a-z0-9-]+\.)?example\.com[/:&?]?".

Definition blockOrg : Rule :=
  urlRule "||example.org^" "||example.org^"
          "^[htpsw]+:\/\/([a-z0-9-]+\.)?example\.org[/:&?]?".

(** The regular-expression rule [/foo{1,3}bar/]. *)
Definition regexRule : Rule :=
  mkRule UrlFilterRule "/foo{1,3}bar/" "/foo{1,3}bar/"
         false false false "" None None None None
         "" false false
         (ALL contentTypes) 0 0 (maskTest (ALL contentTypes))
         false false false false false false false
         "/foo{1,3}bar/" true (Some "foo{1,3}bar") "foo{1,3}bar".

(** [||example.com^$badfilter], which cancels [||example.com^]. *)
Definition badfilterRule : Rule :=
  mkRule UrlFilterRule "||example.com^$badfilter" "||example.com^$badfilter"
         false false true "||example.com^" None None None None
         "" false false
         (ALL contentTypes) 0 0 (maskTest (ALL contentTypes))
         false false false false false false false
         "||example.com^" false None
         "^[htpsw]+:\/\/([a-z0-9-]+\.)?example\.com[/:&?]?".

(** [##.ad], [##.banner] and the selector list [##.a, .b]. *)
Definition hideAd : Rule := cssRule "##.ad" false None ".ad".
Definition hideBanner : Rule := cssRule "##.banner" false None ".banner".
Definition hideList : Rule := cssRule "##.a, .b" false None ".a, .b".

(** Two blocking rules under the limit 1: one of the two entries is cut. *)
Definition twoRules : list RuleInput :=
  [InRule blockCom; InRule blockOrg].

Definition twoRulesCut : ConversionResult :=
  mkConversionResult 2 1 1 true
    [mkEntry (mkTrigger "^[htpsw]+:\/\/([a-z0-9-]+\.)?example\.com[/:&?]?"
                        None None None None None)
             (mkAction "block" None)].

(** The entry of [@@||example.com^$document]. *)
Definition documentExceptionEntry : Entry :=
  mkEntry (mkTrigger "^[htpsw]+:\/\/" None None None (Some ["example.com"]) None)
          (mkAction "ignore-previous-rules" None).

(** 250 copies of [##.a, .b]. *)
Definition manyLists : list RuleInput := repeat (InRule hideList) 250.

End Sample.

(* ------------------------------------------------------------------ *)
(** * Vocabulary of the further properties *)
(* ------------------------------------------------------------------ *)

Section FurtherVocabulary.

Variable adguard : Adguard.

(** The domains one side of [parseDomains] adds: the single domain when it is
    set, else the non-empty domains of the array, last one first. *)
Definition domainSide (single : option string) (many : option (list string))
  : list string :=
  let ofArray :=
    match many with
    | Some domains => map (punyLower adguard) (rev (filter JsString.truthy domains))
    | None => []
    end in
  match single with
  | Some d => if JsString.truthy d then [punyLower adguard d] else ofArray
  | None => ofArray
  end.

(** The [included] and [excluded] arrays of [addDomainOptions]. *)
Definition includedDomains (rule : Rule) : list string :=
  domainSide (permittedDomain rule) (permittedDomains rule).

Definition excludedDomains (rule : Rule) : list string :=
  domainSide (restrictedDomain rule) (restrictedDomains rule).

(** The key [writeDomainOptions] writes on a fresh trigger for an array: none
    for the empty array. *)
Definition domainKey (array : list string) : option (list string) :=
  match array with
  | [] => None
  | _ => Some array
  end.

(** [sub] is [full] with some elements left out. *)
Fixpoint isSubsequence (sub full : list string) : bool :=
  match sub, full with
  | [], _ => true
  | _ :: _, [] => false
  | x :: sub', y :: full' =>
      if String.eqb x y then isSubsequence sub' full'
      else isSubsequence sub full'
  end.

(** The resource types in the order [addResourceType] pushes them. *)
Definition resourceTypeOrder : list string :=
  ["image"; "style-sheet"; "script"; "media"; "raw"; "font"; "document"].

(** The rule's content types are the default ones. *)
Definition defaultContentTypes (rule : Rule) : bool :=
  Z.eqb (permittedContentType rule) (ALL (contentTypes adguard))
  && Z.eqb (restrictedContentType rule) 0.

(** A blocking entry for documents carries an if-domain key or the third-party
    load type. *)
Definition documentBlockScoped (e : Entry) : Prop :=
  action_type (action e) = "block" ->
  (exists types, resource_type (trigger e) = Some types
                 /\ listHas "document" types = true) ->
  if_domain (trigger e) <> None
  \/ exists l, load_type (trigger e) = Some l /\ listHas "third-party" l = true.

(** The hosts the exceptions for [selector] bring: the if-domain hosts of the
    exception entries with that selector, in array order. *)
Definition exceptionHosts (cssExceptions : list Entry) (selector : string)
  : list string :=
  flat_map (fun exc => domainsOf (if_domain (trigger exc)))
           (filter (fun exc => String.eqb (selectorKey exc) selector) cssExceptions).

(** [pushExceptionDomain] for each of [hosts] in turn. *)
Definition pushExceptionDomains (hosts : list string) (rule : Entry) : Entry :=
  fold_left (fun r d => pushExceptionDomain d r) hosts rule.

(** A key that is present on the trigger. *)
Definition hasKey (array : option (list string)) : bool :=
  match array with
  | Some _ => true
  | None => false
  end.

(** The test of [pushExceptionDomain]: the entry has no if-domain host, or one
    of them occurs in [host]. *)
Definition applicableHost (rule : Entry) (host : string) : bool :=
  match if_domain (trigger rule) with
  | Some (p :: ps) => existsb (fun permitted => isSubstringOf permitted host) (p :: ps)
  | _ => true
  end.

(** The entry with [hosts] put at the end of its unless-domain array; the
    entry itself when there is no host. *)
Definition unlessAdded (hosts : list string) (rule : Entry) : Entry :=
  match hosts with
  | [] => rule
  | _ => with_trigger
           (set_unless_domain
              (Some (domainsOf (unless_domain (trigger rule)) ++ hosts)%list))
           rule
  end.

(** All the entries a grouping holds: the ten categories and the two temporary
    arrays. *)
Definition groupedEntries (g : Grouping) : list Entry :=
  (List.concat (categories (contentBlocker g)) ++ cssBlocking g ++ cssExceptions g)%list.

(** A domain array that is present has a host. *)
Definition domainKeysFilled (e : Entry) : Prop :=
  if_domain (trigger e) <> Some [] /\ unless_domain (trigger e) <> Some [].

(** The three shapes of the action of a converted rule. *)
Definition actionOfConversion (e : Entry) : Prop :=
  action e = mkAction "block" None
  \/ (action_type (action e) = "css-display-none"
      /\ exists s, selector (action e) = Some s)
  \/ action_type (action e) = "ignore-previous-rules".

(** An ignore-previous-rules action without a selector, or with the empty
    one. *)
Definition plainException (e : Entry) : Prop :=
  action_type (action e) = "ignore-previous-rules"
  /\ (selector (action e) = None \/ selector (action e) = Some "").

End FurtherVocabulary.


(* ------------------------------------------------------------------ *)
(** * Properties *)
(* ------------------------------------------------------------------ *)

(** ** The definitions on concrete inputs *)

Example indexOf_dash : JsString.indexOf " - " "a - b" = Some 1.
Proof. reflexivity. Qed.

Example indexOfFrom_slash : JsString.indexOfFrom "/" "||a.com/x" 2 = Some 7.
Proof. reflexivity. Qed.

Example digit_braces_found :
  map (Regex.search reDigitBraces) ["a{2}"; "{1,}"; "a{}"; "a{x}"]
  = [true; true; false; false].
Proof. reflexivity. Qed.

Example pipe_found :
  map (Regex.search rePipe) ["a|b"; "a||"; "|b"; "a\|b"]
  = [true; true; false; false].
Proof. reflexivity. Qed.

Example non_ascii_found :
  map (Regex.search reNonAscii) [String (ascii_of_nat 195) "a"; "abc"]
  = [true; false].
Proof. reflexivity. Qed.

Example negative_lookahead_found :
  map (Regex.search reNegativeLookahead) ["x(?!a)y"; "(?=a)"] = [true; false].
Proof. reflexivity. Qed.

Example meta_character_found :
  map (Regex.search reMetaCharacter) ["a\d"; "\d"; "a\\d"; "a\."]
  = [true; false; false; false].
Proof. reflexivity. Qed.

Example domain_names :
  map (Regex.matches domainNameRegex)
      ["example.com"; "ex-ample.co.uk"; "a.com"; "example.c"; "-x.com"; "exa_mple.com"]
  = [true; true; false; false; false; false].
Proof. reflexivity. Qed.

Example parseRuleDomain_samples :
  map (parseRuleDomain Sample.adguard)
      ["||example.com^"; "http://www.example.com/path"; "||Example.com"; "/ads/*"]
  = [Some (mkParsedDomain "example.com" (Some "^"));
     Some (mkParsedDomain "example.com" (Some "/path"));
     Some (mkParsedDomain "example.com" None);
     None].
Proof. reflexivity. Qed.

(** [||example.com^] alone: one entry, in urlBlocking. *)
Example blocking_rule_converted :
  urlBlocking (convertLines Sample.adguard [InRule Sample.blockCom] false)
  = [mkEntry (mkTrigger "^[htpsw]+:\/\/([a-z0-9-]+\.)?example\.com[/:&?]?"
                        None None None None None)
             (mkAction "block" None)].
Proof. reflexivity. Qed.

(** [##.ad] with the exception [example.com#@#.ad]: the hide entry gets the
    exception's domain as unless-domain and is no wide entry any more. *)
Example css_exception_applied :
  categories
    (convertLines Sample.adguard
       [InRule Sample.hideAd;
        InRule (Sample.cssRule "example.com#@#.ad" true (Some ["example.com"]) ".ad")]
       false)
  = [[];
     [mkEntry (mkTrigger ".*" None None None None (Some ["example.com"]))
              (mkAction "css-display-none" (Some ".ad"))];
     []; []; []; []; []; []; []; []].
Proof. reflexivity. Qed.

(** ** Strings *)

Lemma prefix_append (p rest : string) : String.prefix p (p ++ rest) = true.
Proof.
  induction p as [|c p IH]; simpl.
  - now destruct rest.
  - destruct (ascii_dec c c) as [_|ne]; [exact IH | now elim ne].
Qed.

Lemma prefix_head (c d : ascii) (p s : string) :
  String.prefix (String c p) (String d s) = true -> c = d.
Proof.
  simpl. destruct (ascii_dec c d) as [e|ne]; [trivial | discriminate].
Qed.

Lemma indexOfAux_lower (pat s : string) :
  forall pos j, JsString.indexOfAux pat s pos = Some j -> pos <= j.
Proof.
  induction s as [|c s IH]; intros pos j; cbn [JsString.indexOfAux].
  - destruct (String.prefix pat ""); [intros [= <-]; lia | discriminate].
  - destruct (String.prefix pat (String c s)).
    + intros [= <-]; lia.
    + intros H. apply IH in H. lia.
Qed.

Lemma indexOfAux_prefix (pat s : string) (pos : nat) :
  String.prefix pat s = true -> JsString.indexOfAux pat s pos = Some pos.
Proof.
  intros H. destruct s; cbn [JsString.indexOfAux]; now rewrite H.
Qed.

(** A text that contains [pat] has an index for it. *)
Lemma indexOfAux_found (pat after : string) :
  forall before pos,
    exists j, JsString.indexOfAux pat (before ++ pat ++ after) pos = Some j.
Proof.
  induction before as [|c before IH]; intros pos.
  - exists pos. change ("" ++ pat ++ after) with (pat ++ after).
    apply indexOfAux_prefix, prefix_append.
  - simpl (_ ++ _). cbn [JsString.indexOfAux].
    destruct (String.prefix pat (String c (before ++ pat ++ after))).
    + now exists pos.
    + apply IH.
Qed.

Lemma startsAt0_head (c : ascii) (s : string) :
  startsAt0 (String c "") (String c s) = true.
Proof.
  unfold startsAt0, JsString.indexOf. simpl.
  destruct (ascii_dec c c) as [_|ne]; [| now elim ne].
  now destruct s.
Qed.

Lemma isIgnoredText_dash (before after : string) :
  isIgnoredText (before ++ " - " ++ after) = true.
Proof.
  unfold isIgnoredText.
  destruct before as [|c before].
  - change ("" ++ " - " ++ after) with (String " " ("- " ++ after)).
    rewrite (startsAt0_head " "). now rewrite !orb_true_r.
  - pose proof (indexOfAux_found " - " after before 1) as [j Hj].
    pose proof (indexOfAux_lower _ _ _ Hj) as L.
    set (tail := " - " ++ after) in *.
    change (String c before ++ tail) with (String c (before ++ tail)).
    unfold JsString.indexOf. cbn [JsString.indexOfAux].
    destruct (String.prefix " - " (String c (before ++ tail))) eqn:P.
    + apply prefix_head in P. subst c.
      rewrite (startsAt0_head " "). now rewrite !orb_true_r.
    + rewrite Hj. destruct j as [|j]; [lia | now rewrite !orb_true_r].
Qed.

Lemma isIgnoredText_ignored (text : string) :
  ignoredInput (InText text) -> isIgnoredText text = true.
Proof.
  intros [H | [H | [[rest H] | [[rest H] | [before [after H]]]]]];
    try discriminate; injection H as ->.
  - reflexivity.
  - unfold isIgnoredText. rewrite (startsAt0_head "!"). now rewrite orb_true_r.
  - unfold isIgnoredText. rewrite (startsAt0_head " "). now rewrite !orb_true_r.
  - apply isIgnoredText_dash.
Qed.

(** ** The error monad *)

Lemma bind_Ret {A B : Type} (c : outcome A) (k : A -> outcome B) (b : B) :
  bind c k = Ret b -> exists a, c = Ret a /\ k a = Ret b.
Proof.
  destruct c as [a|ex]; simpl; [| discriminate]. intros H. now exists a.
Qed.

Ltac bind_inv H :=
  let a := fresh "a" in
  let E := fresh "E" in
  apply bind_Ret in H; destruct H as [a [E H]].

Section Properties.

Variable adguard : Adguard.

(** ** convertLine on ignored input *)

Lemma parseAGRule_ignored (i : RuleInput) (errors : option (list string)) :
  ignoredInput i -> parseAGRule adguard i errors = (None, errors).
Proof.
  intros H. unfold parseAGRule, parseAGRuleBody.
  destruct i as [|text|r].
  - reflexivity.
  - now rewrite (isIgnoredText_ignored H).
  - destruct H as [H | [H | [[rest H] | [[rest H] | [before [after H]]]]]];
      discriminate.
Qed.

(** C10. For an input the parser passes over (null, the empty line, a line that
    starts with an exclamation mark or a space, a line that contains " - "),
    [convertLine] returns null, and appends one message to the error sink when
    a sink is given: the parser reports nothing, and the converter raises
    "Invalid argument rule" on the null rule. *)
Theorem convertLine_ignored_input (i : RuleInput) (sink : list string) :
  ignoredInput i ->
  parseAGRule adguard i (Some sink) = (None, Some sink)
  /\ convertAGRuleToCB adguard None = Throw (Error "Invalid argument rule")
  /\ convertLine adguard i (Some sink)
     = (None, Some (push sink (invalidArgumentMessage i)))
  /\ convertLine adguard i None = (None, None).
Proof.
  intros H. split; [now apply parseAGRule_ignored |].
  split; [reflexivity |].
  unfold convertLine. rewrite !(parseAGRule_ignored _ H). split; reflexivity.
Qed.

(** ** convertArray on a missing or empty array *)

(** C9. [convertArray] returns null when the rules array is null or empty; it
    produces a result object only for a non-empty array. *)
Theorem convertArray_null_or_empty
        (rules : option (list RuleInput)) (limit : option Z) (optimize : bool) :
  ((rules = None \/ rules = Some []) ->
   convertArray adguard rules limit optimize = None)
  /\ (forall result, convertArray adguard rules limit optimize = Some result ->
                     exists first rest, rules = Some (first :: rest)).
Proof.
  split.
  - intros [-> | ->]; reflexivity.
  - intros result H. destruct rules as [[|first rest]|]; try discriminate.
    now exists first, rest.
Qed.

(** ** The finalizer *)

Lemma limitExceeded_spec (limit : option Z) (len : nat) :
  limitExceeded limit len = true
  <-> exists l, limit = Some l /\ (0 < l)%Z /\ (l < Z.of_nat len)%Z.
Proof.
  unfold limitExceeded. destruct limit as [l|].
  - rewrite !andb_true_iff, negb_true_iff, Z.eqb_neq, !Z.ltb_lt. split.
    + intros [[_ P] L]. now exists l.
    + intros [l' [[= <-] [P L]]]. repeat split; lia.
  - split; [discriminate | intros [l [H _]]; discriminate].
Qed.

Lemma applyDomainWildcards_length (rules : list Entry) :
  length (applyDomainWildcards rules) = length rules.
Proof. apply length_map. Qed.

Lemma truncateTo_length (limit : option Z) (l : list Entry) :
  length (truncateTo limit l)
  = if limitExceeded limit (length l)
    then Z.to_nat (match limit with Some z => z | None => 0%Z end)
    else length l.
Proof.
  unfold truncateTo. destruct (limitExceeded limit (length l)) eqn:E; [|reflexivity].
  apply limitExceeded_spec in E. destruct E as [z [-> [P L]]].
  rewrite length_firstn. lia.
Qed.

Lemma truncateTo_shorter (limit : option Z) (l : list Entry) :
  limitExceeded limit (length l) = true -> length (truncateTo limit l) < length l.
Proof.
  intros E. rewrite truncateTo_length, E.
  apply limitExceeded_spec in E. destruct E as [z [-> [P L]]]. lia.
Qed.

Lemma concatCategories_ordered (cb : ContentBlocker) :
  concatCategories cb
  = (cssBlockingWide cb ++ cssBlockingGenericDomainSensitive cb
     ++ cssBlockingGenericHideExceptions cb ++ cssBlockingDomainSensitive cb
     ++ cssElemhide cb ++ urlBlocking cb ++ other cb ++ important cb
     ++ importantExceptions cb ++ documentExceptions cb)%list.
Proof.
  unfold concatCategories. now rewrite <- !app_assoc.
Qed.

Lemma convertArray_result (rules : list RuleInput) (limit : option Z)
      (optimize : bool) (result : ConversionResult) :
  convertArray adguard (Some rules) limit optimize = Some result ->
  result = fst (createConversionResult (convertLines adguard rules optimize) limit).
Proof.
  destruct rules as [|first rest]; [discriminate |].
  unfold convertArray. now intros [= <-].
Qed.

Lemma createConversionResult_converted (cb : ContentBlocker) (limit : option Z) :
  converted (fst (createConversionResult cb limit))
  = applyDomainWildcards (truncateTo limit (concatCategories cb)).
Proof.
  unfold createConversionResult, truncateTo. cbn [fst converted].
  now destruct (limitExceeded limit (length (concatCategories cb))).
Qed.

(** C4. In every result of [convertArray], [totalConvertedCount] is the number
    of entries before the cut at the limit and [convertedCount] the number
    after it; the first is at least the second, they are equal exactly when
    [overLimit] is false, and [overLimit] is true exactly when a positive limit
    was given and the concatenated sequence is longer than it, that is when
    entries were cut off. *)
Theorem conversion_counts
        (rules : list RuleInput) (limit : option Z) (optimize : bool)
        (result : ConversionResult) :
  convertArray adguard (Some rules) limit optimize = Some result ->
  let all := concatCategories (convertLines adguard rules optimize) in
  totalConvertedCount result = length all
  /\ converted result = applyDomainWildcards (truncateTo limit all)
  /\ convertedCount result = length (converted result)
  /\ convertedCount result <= totalConvertedCount result
  /\ (totalConvertedCount result = convertedCount result <-> overLimit result = false)
  /\ (overLimit result = true
      <-> exists l, limit = Some l /\ (0 < l)%Z /\ (l < Z.of_nat (length all))%Z)
  /\ (overLimit result = true <-> length (converted result) < length all).
Proof.
  intros H all. apply convertArray_result in H. subst result.
  rewrite createConversionResult_converted. fold all.
  rewrite applyDomainWildcards_length.
  assert (C : convertedCount (fst (createConversionResult
                                     (convertLines adguard rules optimize) limit))
              = length (truncateTo limit all)).
  { unfold createConversionResult, truncateTo. cbn [fst convertedCount]. fold all.
    destruct (limitExceeded limit (length all));
      now rewrite applyDomainWildcards_length. }
  assert (O : overLimit (fst (createConversionResult
                                (convertLines adguard rules optimize) limit))
              = limitExceeded limit (length all)) by reflexivity.
  rewrite C, O. cbn [fst totalConvertedCount createConversionResult]. fold all.
  pose proof (truncateTo_length limit all) as L.
  pose proof (@truncateTo_shorter limit all) as S.
  destruct (limitExceeded limit (length all)) eqn:E.
  - specialize (S eq_refl). repeat split; try lia; try discriminate; try easy.
    + intros _. now apply limitExceeded_spec.
  - repeat split; try lia; try discriminate; try easy.
    + intros X. apply limitExceeded_spec in X. congruence.
Qed.

Lemma addWildcard_domains (array : option (list string)) (d : string) :
  In d (domainsOf (addWildcard array)) -> exists host, d = String "*" host.
Proof.
  destruct array as [l|]; simpl; [| contradiction].
  rewrite in_map_iff. intros [host [<- _]]. now exists host.
Qed.

(** C3. In every result of [convertArray], every host of the if-domain and of
    the unless-domain array of every entry of [converted] begins with the
    character [*]. *)
Theorem converted_domains_have_wildcard
        (rules : list RuleInput) (limit : option Z) (optimize : bool)
        (result : ConversionResult) (e : Entry) (d : string) :
  convertArray adguard (Some rules) limit optimize = Some result ->
  In e (converted result) ->
  In d (domainsOf (if_domain (trigger e))) \/ In d (domainsOf (unless_domain (trigger e))) ->
  exists host, d = String "*" host.
Proof.
  intros H He Hd. apply convertArray_result in H. subst result.
  rewrite createConversionResult_converted in He.
  unfold applyDomainWildcards in He. apply in_map_iff in He.
  destruct He as [e0 [<- _]]. cbn in Hd.
  destruct Hd as [Hd | Hd]; eapply addWildcard_domains; exact Hd.
Qed.

(** C2 (as amended). The [converted] sequence of every result of [convertArray]
    is the concatenation of the ten categories in the order cssBlockingWide,
    cssBlockingGenericDomainSensitive, cssBlockingGenericHideExceptions,
    cssBlockingDomainSensitive, cssElemhide, urlBlocking, other, important,
    importantExceptions, documentExceptions, cut to its first [limit] entries
    when a positive limit is exceeded, with [*] put before every domain. *)
Theorem converted_is_ordered_concatenation
        (rules : list RuleInput) (limit : option Z) (optimize : bool)
        (result : ConversionResult) :
  convertArray adguard (Some rules) limit optimize = Some result ->
  let cb := convertLines adguard rules optimize in
  let all :=
    (cssBlockingWide cb ++ cssBlockingGenericDomainSensitive cb
     ++ cssBlockingGenericHideExceptions cb ++ cssBlockingDomainSensitive cb
     ++ cssElemhide cb ++ urlBlocking cb ++ other cb ++ important cb
     ++ importantExceptions cb ++ documentExceptions cb)%list in
  converted result
  = applyDomainWildcards
      (if limitExceeded limit (length all)
       then firstn (Z.to_nat (match limit with Some l => l | None => 0%Z end)) all
       else all).
Proof.
  intros H cb all. apply convertArray_result in H. subst result.
  rewrite createConversionResult_converted, concatCategories_ordered.
  reflexivity.
Qed.

(** ** Domain scopes *)

(** On a trigger without domains, [writeDomainOptions] writes one side at
    most. *)
Lemma writeDomainOptions_one_side (included excluded : list string) (t t' : Trigger) :
  if_domain t = None ->
  unless_domain t = None ->
  writeDomainOptions included excluded t = Ret t' ->
  nonEmpty (if_domain t') && nonEmpty (unless_domain t') = false.
Proof.
  intros I U. unfold writeDomainOptions.
  destruct included as [|i included], excluded as [|x excluded]; cbn;
    try discriminate; intros [= <-]; cbn; rewrite ?I, ?U; reflexivity.
Qed.

(** No entry that leaves [applyCssExceptions] has both sides. *)
Lemma applyCssExceptions_one_side (cssBlocking cssExceptions : list Entry) (r : Entry) :
  In r (applyCssExceptions cssBlocking cssExceptions) -> bothDomains r = false.
Proof.
  unfold applyCssExceptions. rewrite filter_In, negb_true_iff. now intros [_ H].
Qed.

(** ** The whitelist rewrite *)

Lemma writeDomainOptions_single (d : string) (t : Trigger) :
  writeDomainOptions [d] [] t = Ret (set_if_domain (Some [d]) t).
Proof. reflexivity. Qed.

Lemma nonTrivialPath_trivial (p : option string) :
  p = None \/ p = Some "^" \/ p = Some "/" -> nonTrivialPath p = false.
Proof. intros [-> | [-> | ->]]; reflexivity. Qed.

(** What [checkWhiteListExceptions] returns when the rewrite takes place. *)
Lemma checkWhiteListExceptions_rewrite
      (rule : Rule) (result : Entry) (d : string) (p : option string) :
  whiteListRule rule = true ->
  isDocumentWhiteList rule || isUrlBlockRule adguard rule
    || isCssExceptionRule adguard rule = true ->
  parseRuleDomain adguard (getUrlRuleText rule) = Some (mkParsedDomain d p) ->
  nonTrivialPath p = false ->
  checkWhiteListExceptions adguard rule result
  = Ret (mkEntry
           (mkTrigger URL_FILTER_ANY_URL
                      (url_filter_is_case_sensitive (trigger result))
                      None
                      (load_type (trigger result))
                      (Some [d])
                      (unless_domain (trigger result)))
           (action result)).
Proof.
  intros W K P T. unfold checkWhiteListExceptions.
  rewrite W, K, P. cbn [path domain]. rewrite T.
  rewrite writeDomainOptions_single.
  destruct (isDocumentWhiteList rule); reflexivity.
Qed.

(** C5 (as amended). For a whitelist url rule that triggers the whitelist
    rewrite (a document whitelist, or the sole option URLBLOCK or GENERICBLOCK,
    or the sole option GENERICHIDE or ELEMHIDE) and whose url text parses to a
    domain with a trivial path (absent, or equal to the caret or to the slash),
    the entry the rule converts to has the if-domain array made of the parsed
    domain alone, the url-filter of any URL, which is the
    string ^[htpsw]+:\/\/ , and no resource-type key. *)
Theorem whitelist_rewrite
        (rule : Rule) (d : string) (p : option string) (e : Entry) :
  whiteListRule rule = true ->
  isDocumentWhiteList rule || isUrlBlockRule adguard rule
    || isCssExceptionRule adguard rule = true ->
  parseRuleDomain adguard (getUrlRuleText rule) = Some (mkParsedDomain d p) ->
  p = None \/ p = Some "^" \/ p = Some "/" ->
  convertUrlFilterRule adguard rule = Ret e ->
  if_domain (trigger e) = Some [d]
  /\ url_filter (trigger e) = "^[htpsw]+:\/\/"
  /\ resource_type (trigger e) = None.
Proof.
  intros W K P T H. apply nonTrivialPath_trivial in T.
  unfold convertUrlFilterRule in H.
  bind_inv H. bind_inv H. bind_inv H. bind_inv H. bind_inv H. bind_inv H.
  injection H as <-.
  rewrite (@checkWhiteListExceptions_rewrite rule _ d p W K P T) in E3.
  injection E3 as <-. repeat split.
Qed.

(** ** The first loop of convertLines *)

Lemma appendCollected_assoc (a b c : Collected) :
  appendCollected (appendCollected a b) c = appendCollected a (appendCollected b c).
Proof.
  unfold appendCollected. cbn. now rewrite <- !app_assoc.
Qed.

Lemma appendCollected_nil_r (a : Collected) :
  appendCollected a (mkCollected [] [] []) = a.
Proof.
  destruct a. unfold appendCollected. cbn. now rewrite !app_nil_r.
Qed.

Lemma collectRule_append (st : Collected) (element : RuleInput) :
  collectRule adguard st element
  = appendCollected st (collectRule adguard (mkCollected [] [] []) element).
Proof.
  destruct st as [A B E]. unfold collectRule, parseAGRule. cbn [parseErrors].
  destruct element as [|text|r].
  - cbn. unfold appendCollected. cbn. now rewrite !app_nil_r.
  - destruct (parseAGRuleBody adguard (InText text)) as [[r|]|ex];
      cbn; try destruct (isBadFilter r);
      unfold appendCollected, push; cbn; now rewrite ?app_nil_r.
  - destruct (JsString.truthy (ruleText r)).
    + destruct (isBadFilter r); unfold appendCollected, push; cbn;
        now rewrite ?app_nil_r.
    + cbn. unfold appendCollected, push. cbn. now rewrite ?app_nil_r.
Qed.

Lemma collect_fold (rules : list RuleInput) :
  forall st, fold_left (collectRule adguard) rules st
             = appendCollected st (collectRules adguard rules).
Proof.
  unfold collectRules.
  induction rules as [|element rules IH]; intros st; cbn [fold_left].
  - now rewrite appendCollected_nil_r.
  - rewrite IH, (IH (collectRule _ _ _)), <- appendCollected_assoc.
    now rewrite <- collectRule_append.
Qed.

Lemma collectRules_app (l1 l2 : list RuleInput) :
  collectRules adguard (l1 ++ l2)
  = appendCollected (collectRules adguard l1) (collectRules adguard l2).
Proof.
  unfold collectRules at 1. rewrite fold_left_app.
  fold (collectRules adguard l1). apply collect_fold.
Qed.

Lemma collectRules_cons (element : RuleInput) (rules : list RuleInput) :
  collectRules adguard (element :: rules)
  = appendCollected (collectRule adguard (mkCollected [] [] []) element)
                    (collectRules adguard rules).
Proof.
  unfold collectRules at 1. cbn [fold_left]. apply collect_fold.
Qed.

(** An element that yields a rule adds it to [agRules], or its [badFilter] to
    the suppression list, and no error. *)
Lemma collectRule_yields (element : RuleInput) (rule : Rule) :
  yieldsRule adguard element rule ->
  collectRule adguard (mkCollected [] [] []) element
  = if isBadFilter rule then mkCollected [] [badFilter rule] []
    else mkCollected [rule] [] [].
Proof.
  intros [[-> T] | [text [-> [I C]]]]; unfold collectRule.
  - rewrite T. now destruct (isBadFilter rule).
  - unfold parseAGRule, parseAGRuleBody. rewrite I, C. cbn.
    now destruct (isBadFilter rule).
Qed.

Lemma collectRule_agRules_not_badfilter (element : RuleInput) (r : Rule) :
  In r (agRules (collectRule adguard (mkCollected [] [] []) element)) ->
  isBadFilter r = false.
Proof.
  unfold collectRule, parseAGRule. cbn [parseErrors].
  destruct element as [|text|r0].
  - cbn. contradiction.
  - destruct (parseAGRuleBody adguard (InText text)) as [[r1|]|ex]; cbn;
      try contradiction.
    destruct (isBadFilter r1) eqn:B; cbn; [contradiction |].
    intros [<- | []]. exact B.
  - destruct (JsString.truthy (ruleText r0)).
    + destruct (isBadFilter r0) eqn:B; cbn; [contradiction |].
      intros [<- | []]. exact B.
    + cbn. contradiction.
Qed.

Lemma agRules_not_badfilter (rules : list RuleInput) (r : Rule) :
  In r (agRules (collectRules adguard rules)) -> isBadFilter r = false.
Proof.
  induction rules as [|element rules IH].
  - cbn. contradiction.
  - rewrite collectRules_cons. cbn [appendCollected agRules].
    rewrite in_app_iff. intros [H | H].
    + eapply collectRule_agRules_not_badfilter; eassumption.
    + now apply IH.
Qed.

(** ** The second loop of convertLines *)

Lemma withErrors_withErrors (E E' : list string) (g : Grouping) :
  withErrors E (withErrors E' g) = withErrors E g.
Proof. reflexivity. Qed.

Lemma withErrors_same (g : Grouping) :
  withErrors (errors (contentBlocker g)) g = g.
Proof. now destruct g as [[] ? ?]. Qed.

Lemma routeItem_withErrors (agRule : Rule) (item : Entry) (E : list string)
      (g : Grouping) :
  routeItem adguard agRule item (withErrors E g)
  = withErrors E (routeItem adguard agRule item g).
Proof.
  unfold routeItem.
  repeat match goal with
         | |- context [if ?c then _ else _] => destruct c
         end; reflexivity.
Qed.

Lemma convertAGRule_errors (rule : Rule) (E : list string) :
  convertAGRule adguard rule E
  = (match convertAGRuleToCB adguard (Some rule) with
     | Ret item => Some item
     | Throw _ => None
     end,
     (E ++ match convertAGRuleToCB adguard (Some rule) with
           | Ret _ => []
           | Throw ex => [conversionErrorMessage rule ex]
           end)%list).
Proof.
  unfold convertAGRule, push.
  destruct (convertAGRuleToCB adguard (Some rule)); [now rewrite app_nil_r | reflexivity].
Qed.

(** One turn of the loop on a grouping whose errors are replaced by [E]. *)
Lemma groupRule_withErrors (bads : list string) (agRule : Rule) (E : list string)
      (g : Grouping) :
  groupRule adguard bads (withErrors E g) agRule
  = withErrors (E ++ groupErrors adguard bads agRule) (groupRule adguard bads g agRule).
Proof.
  unfold groupRule, groupErrors.
  destruct (listHas (ruleText agRule) bads).
  - now rewrite app_nil_r.
  - change (errors (contentBlocker (withErrors E g))) with E.
    rewrite !convertAGRule_errors.
    destruct (convertAGRuleToCB adguard (Some agRule)) as [item|ex].
    + change (inContentBlocker (set_errors ?x) ?y) with (withErrors x y).
      now rewrite !routeItem_withErrors, !withErrors_withErrors.
    + reflexivity.
Qed.

Lemma groupRules_withErrors (bads : list string) (agRules : list Rule) :
  forall (E : list string) (g : Grouping),
    groupRules adguard bads agRules (withErrors E g)
    = withErrors (E ++ flat_map (groupErrors adguard bads) agRules)
                 (groupRules adguard bads agRules g).
Proof.
  unfold groupRules.
  induction agRules as [|agRule agRules IH]; intros E g; cbn [fold_left flat_map].
  - now rewrite app_nil_r.
  - rewrite groupRule_withErrors, IH. now rewrite <- app_assoc.
Qed.

Lemma groupRules_app (bads : list string) (l1 l2 : list Rule) (g : Grouping) :
  groupRules adguard bads (l1 ++ l2) g
  = groupRules adguard bads l2 (groupRules adguard bads l1 g).
Proof. apply fold_left_app. Qed.

(** A rule whose conversion throws changes the errors of the grouping only. *)
Lemma groupRule_rejected (bads : list string) (agRule : Rule) (ex : exn)
      (g : Grouping) :
  listHas (ruleText agRule) bads = false ->
  convertAGRuleToCB adguard (Some agRule) = Throw ex ->
  groupRule adguard bads g agRule
  = withErrors (push (errors (contentBlocker g)) (conversionErrorMessage agRule ex)) g.
Proof.
  intros S T. unfold groupRule, convertAGRule. now rewrite S, T.
Qed.

(** The rules that are suppressed take no part in the second loop. *)
Lemma groupRules_translated (bads : list string) (agRules : list Rule) :
  forall g,
    groupRules adguard bads agRules g
    = groupRules adguard []
        (filter (fun agRule => negb (listHas (ruleText agRule) bads)) agRules) g.
Proof.
  unfold groupRules.
  induction agRules as [|agRule agRules IH]; intros g; cbn [fold_left filter].
  - reflexivity.
  - unfold groupRule at 2.
    destruct (listHas (ruleText agRule) bads); cbn [negb].
    + apply IH.
    + cbn [fold_left]. rewrite IH. reflexivity.
Qed.

(** Replacing the errors of the grouping leaves the ten categories as they
    are. *)
Lemma assemble_withErrors (E : list string) (g : Grouping) (optimize : bool) :
  categories (assembleContentBlocker (withErrors E g) optimize)
  = categories (assembleContentBlocker g optimize).
Proof. reflexivity. Qed.

(** ** Rejected regular expressions *)

Lemma validateRegExp_forbidden (regExp : string) :
  matchesForbiddenPattern regExp = true ->
  exists reason, forbiddenBy regExp reason
                 /\ validateRegExp regExp = Throw (Error reason).
Proof.
  unfold matchesForbiddenPattern, validateRegExp. intros M.
  destruct (Regex.search reDigitBraces regExp) eqn:S1.
  { exists MSG_DIGIT_BRACES. split; [now constructor | reflexivity]. }
  destruct (Regex.search rePipe regExp) eqn:S2.
  { exists MSG_PIPE. split; [now constructor | reflexivity]. }
  destruct (Regex.search reNonAscii regExp) eqn:S3.
  { exists MSG_NON_ASCII. split; [now constructor | reflexivity]. }
  destruct (Regex.search reNegativeLookahead regExp) eqn:S4.
  { exists MSG_NEGATIVE_LOOKAHEAD. split; [now constructor | reflexivity]. }
  destruct (Regex.search reMetaCharacter regExp) eqn:S5.
  { exists MSG_META_CHARACTER. split; [now constructor | reflexivity]. }
  discriminate.
Qed.

(** The reason [validateRegExp] gives is that of the first pattern, in the
    order of its tests, that the string matches. *)
Lemma validateRegExp_order (regExp : string) :
  validateRegExp regExp
  = if Regex.search reDigitBraces regExp then Throw (Error MSG_DIGIT_BRACES)
    else if Regex.search rePipe regExp then Throw (Error MSG_PIPE)
    else if Regex.search reNonAscii regExp then Throw (Error MSG_NON_ASCII)
    else if Regex.search reNegativeLookahead regExp
         then Throw (Error MSG_NEGATIVE_LOOKAHEAD)
    else if Regex.search reMetaCharacter regExp then Throw (Error MSG_META_CHARACTER)
    else Ret tt.
Proof.
  unfold validateRegExp.
  destruct (Regex.search reDigitBraces regExp); [reflexivity |].
  destruct (Regex.search rePipe regExp); [reflexivity |].
  destruct (Regex.search reNonAscii regExp); [reflexivity |].
  destruct (Regex.search reNegativeLookahead regExp); [reflexivity |].
  destruct (Regex.search reMetaCharacter regExp); reflexivity.
Qed.

(** C6. A url rule whose url-filter string, built by [createUrlFilterString],
    matches one of the five forbidden patterns is rejected: the url conversion
    throws the error whose reason belongs to a pattern the string matches,
    [convertAGRule] returns null and records the error, and in the pipeline the
    error is among the errors of the content blocker while the ten categories
    are the ones obtained without the rule. *)
Theorem forbidden_regexp_rejected (rule : Rule) :
  ruleClass rule = UrlFilterRule ->
  isCspRule rule = false ->
  matchesForbiddenPattern (createUrlFilterString adguard rule) = true ->
  exists reason,
    forbiddenBy (createUrlFilterString adguard rule) reason
    /\ convertUrlFilterRule adguard rule = Throw (Error reason)
    /\ (forall errors,
           convertAGRule adguard rule errors
           = (None, push errors (conversionErrorMessage rule (Error reason))))
    /\ (forall pre element post optimize,
           yieldsRule adguard element rule ->
           isBadFilter rule = false ->
           listHas (ruleText rule)
                   (badFilterExceptions (collectRules adguard (pre ++ element :: post)))
           = false ->
           let cb := convertLines adguard (pre ++ element :: post) optimize in
           In (conversionErrorMessage rule (Error reason)) (errors cb)
           /\ categories cb = categories (convertLines adguard (pre ++ post) optimize)).
Proof.
  intros K C M.
  destruct (validateRegExp_forbidden _ M) as [reason [F V]].
  assert (U : convertUrlFilterRule adguard rule = Throw (Error reason)).
  { unfold convertUrlFilterRule. rewrite C. cbn [throwIf bind]. now rewrite V. }
  assert (T : convertAGRuleToCB adguard (Some rule) = Throw (Error reason)).
  { unfold convertAGRuleToCB. now rewrite K. }
  exists reason. split; [exact F |]. split; [exact U |]. split.
  { intros errs. unfold convertAGRule. now rewrite T. }
  intros pre element post optimize Y B S cb. subst cb. unfold convertLines.
  rewrite !collectRules_app, collectRules_cons, (collectRule_yields Y), B in *.
  cbn [appendCollected agRules badFilterExceptions parseErrors] in *.
  rewrite !app_nil_l in *.
  set (bads := (badFilterExceptions (collectRules adguard pre)
                ++ badFilterExceptions (collectRules adguard post))%list) in *.
  set (g0 := initialGrouping _).
  change (agRules (collectRules adguard pre)
          ++ [rule] ++ agRules (collectRules adguard post))%list
    with (agRules (collectRules adguard pre)
          ++ rule :: agRules (collectRules adguard post))%list.
  rewrite !groupRules_app.
  change (groupRules adguard bads (rule :: agRules (collectRules adguard post))
                     (groupRules adguard bads (agRules (collectRules adguard pre)) g0))
    with (groupRules adguard bads (agRules (collectRules adguard post))
            (groupRule adguard bads
               (groupRules adguard bads (agRules (collectRules adguard pre)) g0) rule)).
  rewrite (@groupRule_rejected bads rule (Error reason) _ S T), groupRules_withErrors.
  split.
  - (* the error is recorded *)
    cbn [assembleContentBlocker errors withErrors inContentBlocker contentBlocker
         set_errors].
    unfold push. rewrite !in_app_iff. left. right. now left.
  - (* the categories are those of the input without the rule *)
    apply assemble_withErrors.
Qed.

(** ** Rules cancelled by $badfilter *)

(** C7. A rule of the input with [isBadFilter() == true] puts its [badFilter]
    string into the suppression list and is not translated itself; no rule
    whose [ruleText] equals that string is translated, wherever the two stand
    in the input; and the content blocker is built from the translated rules
    alone, so no category holds an entry of a suppressed rule. *)
Theorem badfilter_suppression
        (rules : list RuleInput) (element : RuleInput) (bf : Rule) (optimize : bool) :
  In element rules ->
  yieldsRule adguard element bf ->
  isBadFilter bf = true ->
  let collected := collectRules adguard rules in
  In (badFilter bf) (badFilterExceptions collected)
  /\ ~ In bf (translatedRules adguard rules)
  /\ (forall r, In r (translatedRules adguard rules) -> ruleText r <> badFilter bf)
  /\ convertLines adguard rules optimize
     = assembleContentBlocker
         (groupRules adguard [] (translatedRules adguard rules)
                     (initialGrouping (parseErrors collected)))
         optimize.
Proof.
  intros I Y B collected.
  assert (S : In (badFilter bf) (badFilterExceptions collected)).
  { subst collected. apply in_split in I. destruct I as [pre [post ->]].
    rewrite collectRules_app, collectRules_cons, (collectRule_yields Y), B.
    cbn [appendCollected badFilterExceptions].
    rewrite !in_app_iff. right. left. now left. }
  split; [exact S |]. split; [| split].
  - unfold translatedRules. rewrite filter_In. intros [A _].
    apply agRules_not_badfilter in A. congruence.
  - intros r. unfold translatedRules. rewrite filter_In, negb_true_iff.
    intros [_ N] Eq. rewrite Eq in N. fold collected in N.
    unfold listHas in N.
    assert (X : existsb (String.eqb (badFilter bf)) (badFilterExceptions collected) = true).
    { apply existsb_exists. exists (badFilter bf). split; [exact S | apply String.eqb_refl]. }
    congruence.
  - unfold convertLines, translatedRules. fold collected.
    now rewrite groupRules_translated.
Qed.

(** ** The CSS compactor *)

Lemma countChar_append (c : ascii) (a b : string) :
  JsString.countChar c (a ++ b) = JsString.countChar c a + JsString.countChar c b.
Proof.
  induction a as [|d a IH]; cbn; [reflexivity | rewrite IH; lia].
Qed.

(** The commas of a joined batch: those of its selectors and one for each
    separator. *)
Lemma countChar_join (batch : list string) :
  JsString.countChar "," (String.concat ", " batch)
  = commasWithin batch + (length batch - 1).
Proof.
  induction batch as [|x batch IH]; [reflexivity |].
  destruct batch as [|y batch].
  - cbn. lia.
  - change (String.concat ", " (x :: y :: batch))
      with (x ++ ", " ++ String.concat ", " (y :: batch)).
    rewrite !countChar_append, IH. cbn. lia.
Qed.

Lemma addWideRule_batch (batch : list string) (wide : list Entry) :
  batch <> [] -> addWideRule batch wide = (wide ++ [wideEntry batch])%list.
Proof. destruct batch; [congruence | reflexivity]. Qed.

(** The loop of the compactor: every entry it adds is a full batch, and no
    selector is lost or moved. *)
Lemma compactLoop_batches (cssBlocking : list Entry) :
  forall (acc : CssCompact) (pending : list string),
    length pending < MAX_SELECTORS_PER_WIDE_RULE ->
    exists full,
      compactWide (fst (compactLoop cssBlocking acc pending))
      = (compactWide acc ++ map wideEntry full)%list
      /\ Forall (fun b => length b = MAX_SELECTORS_PER_WIDE_RULE) full
      /\ (pending ++ wideSelectorsOf cssBlocking
          = List.concat full ++ snd (compactLoop cssBlocking acc pending))%list
      /\ length (snd (compactLoop cssBlocking acc pending))
         < MAX_SELECTORS_PER_WIDE_RULE.
Proof.
  induction cssBlocking as [|rule rest IH]; intros acc pending L.
  - exists []. cbn. rewrite !app_nil_r. repeat split; trivial.
  - cbn [compactLoop wideSelectorsOf].
    destruct (if_domain (trigger rule)) as [ds|].
    + destruct (IH (mkCssCompact (compactWide acc)
                                 (push (compactDomainSensitive acc) rule)
                                 (compactGenericDomainSensitive acc))
                   pending L) as [full H].
      exists full. exact H.
    + destruct (unless_domain (trigger rule)) as [ds|].
      * destruct (IH (mkCssCompact (compactWide acc) (compactDomainSensitive acc)
                                   (push (compactGenericDomainSensitive acc) rule))
                     pending L) as [full H].
        exists full. exact H.
      * destruct (Nat.leb_spec MAX_SELECTORS_PER_WIDE_RULE
                               (length (push pending (joinedSelector rule))))
          as [Full | Short].
        -- assert (N : push pending (joinedSelector rule) <> []).
           { unfold push. now destruct pending. }
           assert (E : length (push pending (joinedSelector rule))
                       = MAX_SELECTORS_PER_WIDE_RULE).
           { unfold push in *. rewrite length_app in *. cbn in *. lia. }
           destruct (IH (mkCssCompact
                           (addWideRule (push pending (joinedSelector rule))
                                        (compactWide acc))
                           (compactDomainSensitive acc)
                           (compactGenericDomainSensitive acc))
                        [])
             as [full [W [F [C S]]]].
           { unfold MAX_SELECTORS_PER_WIDE_RULE. cbn. lia. }
           exists (push pending (joinedSelector rule) :: full).
           split; [| split; [| split]].
           ++ rewrite W. cbn [compactWide map]. rewrite (addWideRule_batch _ N).
              now rewrite <- app_assoc.
           ++ now constructor.
           ++ cbn [List.concat]. rewrite <- app_assoc, <- C. cbn [app].
              unfold push. now rewrite <- app_assoc.
           ++ exact S.
        -- destruct (IH acc (push pending (joinedSelector rule)) Short)
             as [full [W [F [C S]]]].
           exists full. split; [exact W |]. split; [exact F |]. split; [| exact S].
           rewrite <- C. unfold push. now rewrite <- app_assoc.
Qed.

(** The batches of [compactCssRules]: full ones, then the rest when there is
    one. *)
Lemma compactCssRules_batches (cssBlocking : list Entry) :
  exists full rest,
    compactWide (compactCssRules cssBlocking) = map wideEntry (full ++ rest)
    /\ Forall (fun b => length b = MAX_SELECTORS_PER_WIDE_RULE) full
    /\ (rest = [] \/ exists b, rest = [b] /\ 1 <= length b < MAX_SELECTORS_PER_WIDE_RULE)
    /\ List.concat (full ++ rest) = wideSelectorsOf cssBlocking.
Proof.
  destruct (@compactLoop_batches cssBlocking (mkCssCompact [] [] []) [])
    as [full [W [F [C S]]]].
  { unfold MAX_SELECTORS_PER_WIDE_RULE. cbn. lia. }
  unfold compactCssRules.
  destruct (compactLoop cssBlocking (mkCssCompact [] [] []) []) as [acc pending].
  cbn [fst snd compactWide app] in *.
  destruct pending as [|x pending].
  - exists full, []. rewrite app_nil_r in *. cbn [addWideRule].
    split; [exact W |]. split; [exact F |]. split; [now left | now symmetry].
  - exists full, [x :: pending].
    rewrite addWideRule_batch by discriminate. rewrite W, map_app.
    split; [reflexivity |]. split; [exact F |]. split.
    + right. exists (x :: pending). split; [reflexivity |]. cbn [length] in *. lia.
    + rewrite concat_app. cbn [List.concat]. rewrite app_nil_r. now symmetry.
Qed.

Lemma routeItem_cssBlockingWide (agRule : Rule) (item : Entry) (g : Grouping) :
  cssBlockingWide (contentBlocker (routeItem adguard agRule item g))
  = cssBlockingWide (contentBlocker g).
Proof.
  unfold routeItem.
  repeat match goal with
         | |- context [if ?c then _ else _] => destruct c
         end; reflexivity.
Qed.

Lemma groupRules_cssBlockingWide (bads : list string) (agRules : list Rule) :
  forall g,
    cssBlockingWide (contentBlocker (groupRules adguard bads agRules g))
    = cssBlockingWide (contentBlocker g).
Proof.
  unfold groupRules.
  induction agRules as [|agRule agRules IH]; intros g; cbn [fold_left].
  - reflexivity.
  - rewrite IH. unfold groupRule.
    destruct (listHas (ruleText agRule) bads); [reflexivity |].
    destruct (convertAGRule adguard agRule (errors (contentBlocker g))) as [[item|] errs].
    + now rewrite routeItem_cssBlockingWide.
    + reflexivity.
Qed.

(** C8 (as amended). [compactCssRules] cuts the selectors of the wide entries,
    kept in array order, into batches of exactly 250 followed by the rest, and
    emits one entry for each batch; the cssBlockingWide category of the
    pipeline holds these entries, or nothing when optimize is set.  So every
    entry of the category joins at least one and at most 250 selectors with
    comma and space under the url-filter ".*", and its selector holds the
    commas of the joined selectors and one comma for each separator: at most
    249 commas besides those inside the selectors. *)
Theorem wide_entries_batched :
  (forall cssBlocking,
      exists full rest,
        compactWide (compactCssRules cssBlocking) = map wideEntry (full ++ rest)
        /\ Forall (fun b => length b = 250) full
        /\ (rest = [] \/ exists b, rest = [b] /\ 1 <= length b < 250)
        /\ List.concat (full ++ rest) = wideSelectorsOf cssBlocking)
  /\ (forall rules optimize,
         let collected := collectRules adguard rules in
         let g := groupRules adguard (badFilterExceptions collected) (agRules collected)
                             (initialGrouping (parseErrors collected)) in
         cssBlockingWide (convertLines adguard rules optimize)
         = if optimize then []
           else compactWide
                  (compactCssRules (applyCssExceptions (cssBlocking g) (cssExceptions g))))
  /\ (forall rules optimize e,
         In e (cssBlockingWide (convertLines adguard rules optimize)) ->
         exists batch,
           1 <= length batch <= 250
           /\ url_filter (trigger e) = ".*"
           /\ selector (action e) = Some (String.concat ", " batch)
           /\ JsString.countChar "," (String.concat ", " batch)
              = commasWithin batch + (length batch - 1)
           /\ JsString.countChar "," (String.concat ", " batch)
              <= commasWithin batch + 249).
Proof.
  assert (A : forall rules optimize,
             let collected := collectRules adguard rules in
             let g := groupRules adguard (badFilterExceptions collected)
                                 (agRules collected)
                                 (initialGrouping (parseErrors collected)) in
             cssBlockingWide (convertLines adguard rules optimize)
             = if optimize then []
               else compactWide
                      (compactCssRules
                         (applyCssExceptions (cssBlocking g) (cssExceptions g)))).
  { intros rules optimize collected g. unfold convertLines.
    fold collected. fold g. cbn [assembleContentBlocker cssBlockingWide].
    destruct optimize; cbn [negb]; [| reflexivity].
    subst g. now rewrite groupRules_cssBlockingWide. }
  split; [exact compactCssRules_batches |]. split; [exact A |].
  intros rules optimize e I. rewrite A in I.
  destruct optimize; [contradiction |].
  match type of I with
  | In e (compactWide (compactCssRules ?l)) =>
      destruct (compactCssRules_batches l) as [full [rest [W [F [R _]]]]]
  end.
  rewrite W in I. apply in_map_iff in I. destruct I as [batch [<- I]].
  exists batch.
  assert (L : 1 <= length batch <= 250).
  { apply in_app_iff in I. destruct I as [I | I].
    - rewrite Forall_forall in F. apply F in I.
      unfold MAX_SELECTORS_PER_WIDE_RULE in I. lia.
    - destruct R as [-> | [b [-> [L1 L2]]]]; [contradiction |].
      destruct I as [<- | []]. unfold MAX_SELECTORS_PER_WIDE_RULE in L2. lia. }
  split; [exact L |]. split; [reflexivity |]. split; [reflexivity |].
  rewrite countChar_join. split; lia.
Qed.

End Properties.

(* ------------------------------------------------------------------ *)
(** * The properties on the sample rules *)
(* ------------------------------------------------------------------ *)

(** A comment line is ignored, and [convertLine] reports it. *)
Lemma convertLine_ignored_input_witness :
  ignoredInput (InText "! comment")
  /\ convertLine Sample.adguard (InText "! comment") (Some [])
     = (None, Some (push [] (invalidArgumentMessage (InText "! comment")))).
Proof.
  assert (H : ignoredInput (InText "! comment")).
  { right. right. left. now exists " comment". }
  split; [exact H |].
  exact (proj1 (proj2 (proj2 (convertLine_ignored_input Sample.adguard [] H)))).
Defined.

Lemma convertArray_null_or_empty_witness :
  convertArray Sample.adguard (Some []) None false = None
  /\ exists first rest, Some [InRule Sample.blockCom] = Some (first :: rest).
Proof.
  split.
  - exact (proj1 (convertArray_null_or_empty Sample.adguard (Some []) None false)
                 (or_intror eq_refl)).
  - exact (proj2 (convertArray_null_or_empty Sample.adguard
                    (Some [InRule Sample.blockCom]) None false)
                 _ eq_refl).
Defined.

Lemma twoRules_converted :
  convertArray Sample.adguard (Some Sample.twoRules) (Some 1%Z) false = Some Sample.twoRulesCut.
Proof. reflexivity. Qed.

Lemma conversion_counts_witness :
  convertArray Sample.adguard (Some Sample.twoRules) (Some 1%Z) false = Some Sample.twoRulesCut
  /\ totalConvertedCount Sample.twoRulesCut = 2
  /\ convertedCount Sample.twoRulesCut <= totalConvertedCount Sample.twoRulesCut
  /\ (overLimit Sample.twoRulesCut = true
      <-> length (converted Sample.twoRulesCut)
          < length (concatCategories (convertLines Sample.adguard Sample.twoRules false))).
Proof.
  pose proof (conversion_counts Sample.adguard Sample.twoRules (Some 1%Z) false
                                twoRules_converted) as H.
  cbv zeta in H. destruct H as [T [_ [_ [L [_ [_ O]]]]]].
  split; [exact twoRules_converted |]. split; [reflexivity |].
  split; [exact L | exact O].
Defined.

(** C2, as stated, fails when the limit cuts the sequence: the two blocking
    rules fill the urlBlocking category with two entries, and under the limit 1
    [converted] holds the first of them only. *)
Lemma finalization_cuts_concatenation :
  exists result,
    convertArray Sample.adguard (Some Sample.twoRules) (Some 1%Z) false = Some result
    /\ let cb := convertLines Sample.adguard Sample.twoRules false in
       let all :=
         (cssBlockingWide cb ++ cssBlockingGenericDomainSensitive cb
          ++ cssBlockingGenericHideExceptions cb ++ cssBlockingDomainSensitive cb
          ++ cssElemhide cb ++ urlBlocking cb ++ other cb ++ important cb
          ++ importantExceptions cb ++ documentExceptions cb)%list in
       length all = 2
       /\ length (converted result) = 1
       /\ converted result <> all.
Proof.
  exists Sample.twoRulesCut. split; [reflexivity |].
  cbv zeta. split; [reflexivity |]. split; [reflexivity |].
  intros H. apply (f_equal (@length Entry)) in H. vm_compute in H. discriminate.
Qed.

Lemma converted_is_ordered_concatenation_witness :
  convertArray Sample.adguard (Some Sample.twoRules) (Some 1%Z) false = Some Sample.twoRulesCut
  /\ converted Sample.twoRulesCut
     = applyDomainWildcards
         (firstn 1 (urlBlocking (convertLines Sample.adguard Sample.twoRules false))).
Proof.
  split; [exact twoRules_converted |].
  exact (converted_is_ordered_concatenation Sample.adguard Sample.twoRules (Some 1%Z) false
                                            twoRules_converted).
Defined.

Lemma plainDocumentException_converted :
  convertUrlFilterRule Sample.adguard Sample.plainDocumentException
  = Ret Sample.documentExceptionEntry.
Proof. reflexivity. Qed.

Lemma plainDocumentException_domain :
  parseRuleDomain Sample.adguard (getUrlRuleText Sample.plainDocumentException)
  = Some (mkParsedDomain "example.com" (Some "^")).
Proof. reflexivity. Qed.

Lemma whitelist_rewrite_witness :
  whiteListRule Sample.plainDocumentException = true
  /\ isDocumentWhiteList Sample.plainDocumentException = true
  /\ if_domain (trigger Sample.documentExceptionEntry) = Some ["example.com"]
  /\ url_filter (trigger Sample.documentExceptionEntry) = "^[htpsw]+:\/\/"
  /\ resource_type (trigger Sample.documentExceptionEntry) = None.
Proof.
  split; [reflexivity |]. split; [reflexivity |].
  exact (@whitelist_rewrite Sample.adguard Sample.plainDocumentException
           "example.com" (Some "^") Sample.documentExceptionEntry
           eq_refl eq_refl plainDocumentException_domain
           (or_intror (or_introl eq_refl)) plainDocumentException_converted).
Defined.

(** C5, as stated, fails on [@@||example.com^$document]: the rule is a document
    whitelist, its url text parses to example.com with the path ^, and the
    url-filter of its entry is ^[htpsw]+:\/\/ with the plus sign, not
    ^[htpsw]:\/\/ . *)
Lemma whitelist_url_filter_has_plus :
  whiteListRule Sample.plainDocumentException = true
  /\ isDocumentWhiteList Sample.plainDocumentException = true
  /\ parseRuleDomain Sample.adguard (getUrlRuleText Sample.plainDocumentException)
     = Some (mkParsedDomain "example.com" (Some "^"))
  /\ exists e,
       convertUrlFilterRule Sample.adguard Sample.plainDocumentException = Ret e
       /\ url_filter (trigger e) = "^[htpsw]+:\/\/"
       /\ url_filter (trigger e) <> "^[htpsw]:\/\/".
Proof.
  split; [reflexivity |]. split; [reflexivity |]. split; [reflexivity |].
  exists Sample.documentExceptionEntry. split; [reflexivity |]. split; [reflexivity |].
  discriminate.
Qed.

(** C1 on [@@||example.com^$document,domain=~foo.com]: the domain options put
    foo.com into unless-domain, the whitelist rewrite then writes example.com
    into if-domain and leaves unless-domain in place, and the entry is emitted
    in the documentExceptions category with both arrays filled. *)
Theorem whitelist_rewrite_keeps_unless_domain :
  exists e result,
    convertArray Sample.adguard (Some [InRule Sample.documentException]) None false
    = Some result
    /\ converted result = [e]
    /\ errorsCount result = 0
    /\ documentExceptions
         (convertLines Sample.adguard [InRule Sample.documentException] false)
       = [mkEntry (mkTrigger "^[htpsw]+:\/\/" None None None
                             (Some ["example.com"]) (Some ["foo.com"]))
                  (mkAction "ignore-previous-rules" None)]
    /\ if_domain (trigger e) = Some ["*example.com"]
    /\ unless_domain (trigger e) = Some ["*foo.com"]
    /\ nonEmpty (if_domain (trigger e)) && nonEmpty (unless_domain (trigger e)) = true.
Proof.
  eexists. eexists. split; [reflexivity |]. cbn [converted].
  split; [reflexivity |]. repeat split.
Qed.

(** The starred hosts of the entry of [@@||example.com^$document]. *)
Lemma converted_domains_have_wildcard_witness :
  exists result e,
    convertArray Sample.adguard (Some [InRule Sample.plainDocumentException]) None false
    = Some result
    /\ In e (converted result)
    /\ In "*example.com" (domainsOf (if_domain (trigger e)))
    /\ exists host, "*example.com" = String "*" host.
Proof.
  eexists. eexists. split; [reflexivity |].
  assert (I : In (mkEntry (mkTrigger "^[htpsw]+:\/\/" None None None
                                     (Some ["*example.com"]) None)
                          (mkAction "ignore-previous-rules" None))
                 (converted
                    (mkConversionResult 1 1 0 false
                       [mkEntry (mkTrigger "^[htpsw]+:\/\/" None None None
                                           (Some ["*example.com"]) None)
                                (mkAction "ignore-previous-rules" None)]))).
  { now left. }
  split; [exact I |].
  assert (D : In "*example.com"
                 (domainsOf (if_domain (trigger
                    (mkEntry (mkTrigger "^[htpsw]+:\/\/" None None None
                                        (Some ["*example.com"]) None)
                             (mkAction "ignore-previous-rules" None)))))).
  { now left. }
  split; [exact D |].
  exact (@converted_domains_have_wildcard Sample.adguard
           [InRule Sample.plainDocumentException] None false _ _ "*example.com"
           eq_refl I (or_introl D)).
Defined.

(** The rule [/foo{1,3}bar/] is rejected for its quantifier braces. *)
Lemma forbidden_regexp_rejected_witness :
  ruleClass Sample.regexRule = UrlFilterRule
  /\ isCspRule Sample.regexRule = false
  /\ matchesForbiddenPattern (createUrlFilterString Sample.adguard Sample.regexRule) = true
  /\ exists reason,
       convertUrlFilterRule Sample.adguard Sample.regexRule = Throw (Error reason)
       /\ In (conversionErrorMessage Sample.regexRule (Error reason))
             (errors (convertLines Sample.adguard
                        [InRule Sample.blockCom; InRule Sample.regexRule] false))
       /\ categories (convertLines Sample.adguard
                        [InRule Sample.blockCom; InRule Sample.regexRule] false)
          = categories (convertLines Sample.adguard [InRule Sample.blockCom] false).
Proof.
  split; [reflexivity |]. split; [reflexivity |]. split; [reflexivity |].
  destruct (@forbidden_regexp_rejected Sample.adguard Sample.regexRule
              eq_refl eq_refl eq_refl) as [reason [_ [U [_ P]]]].
  exists reason. split; [exact U |].
  exact (P [InRule Sample.blockCom] (InRule Sample.regexRule) [] false
           (or_introl (conj eq_refl eq_refl)) eq_refl eq_refl).
Defined.

(** [||example.com^] is cancelled by the [$badfilter] rule that follows it. *)
Lemma badfilter_suppression_witness :
  In (InRule Sample.badfilterRule)
     [InRule Sample.blockCom; InRule Sample.badfilterRule; InRule Sample.blockOrg]
  /\ yieldsRule Sample.adguard (InRule Sample.badfilterRule) Sample.badfilterRule
  /\ isBadFilter Sample.badfilterRule = true
  /\ In (badFilter Sample.badfilterRule)
        (badFilterExceptions
           (collectRules Sample.adguard
              [InRule Sample.blockCom; InRule Sample.badfilterRule;
               InRule Sample.blockOrg]))
  /\ ~ In Sample.badfilterRule
          (translatedRules Sample.adguard
             [InRule Sample.blockCom; InRule Sample.badfilterRule;
              InRule Sample.blockOrg]).
Proof.
  assert (I : In (InRule Sample.badfilterRule)
                 [InRule Sample.blockCom; InRule Sample.badfilterRule;
                  InRule Sample.blockOrg]).
  { right. now left. }
  assert (Y : yieldsRule Sample.adguard (InRule Sample.badfilterRule)
                         Sample.badfilterRule).
  { left. split; reflexivity. }
  split; [exact I |]. split; [exact Y |]. split; [reflexivity |].
  pose proof (@badfilter_suppression Sample.adguard _ _ _ false I Y eq_refl) as H.
  cbv zeta in H. destruct H as [S [N _]]. split; [exact S | exact N].
Defined.

(** Three generic hiding rules give one wide entry. *)
Lemma wide_entries_batched_witness :
  exists e,
    In e (cssBlockingWide
            (convertLines Sample.adguard
               [InRule Sample.hideAd; InRule Sample.hideBanner; InRule Sample.hideList]
               false))
    /\ exists batch,
         1 <= length batch <= 250
         /\ url_filter (trigger e) = ".*"
         /\ selector (action e) = Some (String.concat ", " batch).
Proof.
  exists (wideEntry [".ad"; ".banner"; ".a, .b"]).
  assert (I : In (wideEntry [".ad"; ".banner"; ".a, .b"])
                 (cssBlockingWide
                    (convertLines Sample.adguard
                       [InRule Sample.hideAd; InRule Sample.hideBanner;
                        InRule Sample.hideList] false))).
  { now left. }
  split; [exact I |].
  destruct (proj2 (proj2 (wide_entries_batched Sample.adguard)) _ _ _ I)
    as [batch [L [U [S _]]]].
  exists batch. split; [exact L |]. split; [exact U | exact S].
Defined.

(** C8, as stated, fails on 250 copies of [##.a, .b]: they make one wide entry
    of 250 selectors, whose selector string has 499 commas. *)
Lemma wide_selector_with_inner_commas :
  exists e sel,
    cssBlockingWide (convertLines Sample.adguard Sample.manyLists false) = [e]
    /\ selector (action e) = Some sel
    /\ JsString.countChar "," sel = 499
    /\ ~ JsString.countChar "," sel <= 249.
Proof.
  exists (wideEntry (repeat ".a, .b" 250)), (String.concat ", " (repeat ".a, .b" 250)).
  assert (C : JsString.countChar ","
                (String.concat ", " (repeat ".a, .b" 250)) = 499)
    by (vm_compute; reflexivity).
  split; [vm_compute; reflexivity |].
  split; [reflexivity |].
  split; [exact C |]. rewrite C. lia.
Qed.

(* ------------------------------------------------------------------ *)
(** * Further properties of the converter *)
(* ------------------------------------------------------------------ *)

Section FurtherProperties.

Variable adguard : Adguard.

Lemma throwIf_not (cond : bool) (message : string) (u : unit) :
  throwIf cond message = Ret u -> cond = false.
Proof. destruct cond; [discriminate | reflexivity]. Qed.

(** ** Domain options *)

Lemma fold_left_push {A B : Type} (f : A -> B) (l : list A) :
  forall acc, fold_left (fun acc d => push acc (f d)) l acc = (acc ++ map f l)%list.
Proof.
  induction l as [|x l IH]; intros acc; cbn [fold_left map].
  - now rewrite app_nil_r.
  - rewrite IH. unfold push. now rewrite <- app_assoc.
Qed.

Lemma parseDomainSide_domainSide (single : option string) (many : option (list string))
      (acc : list string) :
  parseDomainSide adguard single many acc = (acc ++ domainSide adguard single many)%list.
Proof.
  assert (W : walkDomains adguard many acc
              = (acc ++ match many with
                        | Some domains =>
                            map (punyLower adguard) (rev (filter JsString.truthy domains))
                        | None => []
                        end)%list).
  { unfold walkDomains. destruct many as [domains|].
    - now rewrite fold_left_push, filter_rev.
    - now rewrite app_nil_r. }
  unfold parseDomainSide, domainSide.
  destruct single as [d|]; [destruct (JsString.truthy d) |]; trivial.
Qed.

(** X1. [parseDomains] only appends to the two arrays it is given.  On each
    side a non-empty single domain is taken alone and the array is then not
    read; otherwise the non-empty domains of the array are taken from the last
    to the first.  Every domain is lower-cased and then put in Punycode. *)
Theorem parseDomains_appends (rule : Rule) (included excluded : list string) :
  parseDomains adguard rule included excluded
  = ((included ++ includedDomains adguard rule)%list,
     (excluded ++ excludedDomains adguard rule)%list).
Proof.
  unfold parseDomains, includedDomains, excludedDomains.
  now rewrite !parseDomainSide_domainSide.
Qed.

Lemma writeDomainOptions_cases (included excluded : list string) (t : Trigger) :
  writeDomainOptions included excluded t
  = match included, excluded with
    | _ :: _, _ :: _ =>
        Throw (Error "Safari does not support both permitted and restricted domains")
    | _ :: _, [] => Ret (set_if_domain (Some included) t)
    | [], _ :: _ => Ret (set_unless_domain (Some excluded) t)
    | [], [] => Ret t
    end.
Proof. destruct included, excluded; reflexivity. Qed.

Lemma addDomainOptions_cases (t : Trigger) (rule : Rule) :
  addDomainOptions adguard t rule
  = writeDomainOptions (includedDomains adguard rule) (excludedDomains adguard rule) t.
Proof.
  unfold addDomainOptions. now rewrite parseDomains_appends.
Qed.

(** ** CSS rules *)

(** X2. [convertCssFilterRule] returns an entry exactly for the rules that are
    no CSS-injection rule, no extended-CSS rule, and do not have domains on
    both the permitted and the restricted side. *)
Theorem css_rule_converts_iff (rule : Rule) :
  (exists e, convertCssFilterRule adguard rule = Ret e)
  <-> isInjectRule rule = false
      /\ extendedCss rule = false
      /\ (includedDomains adguard rule = [] \/ excludedDomains adguard rule = []).
Proof.
  unfold convertCssFilterRule.
  rewrite addDomainOptions_cases, writeDomainOptions_cases.
  destruct (isInjectRule rule), (extendedCss rule),
    (includedDomains adguard rule) as [|i inc],
    (excludedDomains adguard rule) as [|x exc]; cbn;
    (split; [intros [e H]; try discriminate; repeat split; auto
            | intros [I [X [D | D]]]; try discriminate; eexists; reflexivity]).
Qed.

(** X3. The entry of a CSS rule has the url-filter ".*", the selector of the
    rule, the type css-display-none, or ignore-previous-rules for an exception
    rule, the non-empty domain arrays of the rule as if-domain and
    unless-domain, and no other key. *)
Theorem css_entry_shape (rule : Rule) (e : Entry) :
  convertCssFilterRule adguard rule = Ret e ->
  e = mkEntry
        (mkTrigger ".*" None None None
                   (domainKey (includedDomains adguard rule))
                   (domainKey (excludedDomains adguard rule)))
        (mkAction (if whiteListRule rule then "ignore-previous-rules"
                   else "css-display-none")
                  (Some (cssSelector rule))).
Proof.
  unfold convertCssFilterRule, setWhiteList.
  rewrite addDomainOptions_cases, writeDomainOptions_cases.
  destruct (isInjectRule rule), (extendedCss rule),
    (includedDomains adguard rule) as [|i inc],
    (excludedDomains adguard rule) as [|x exc], (whiteListRule rule);
    cbn; try discriminate; intros [= <-]; reflexivity.
Qed.

(** ** Url rules *)

Lemma isSubsequence_pick (b1 b2 b3 b4 b5 b6 b7 : bool) :
  isSubsequence
    (pushIf b7 "document"
       (pushIf b6 "font"
          (pushIf b5 "raw"
             (pushIf b4 "media"
                (pushIf b3 "script"
                   (pushIf b2 "style-sheet" (pushIf b1 "image" []))))))) 
    resourceTypeOrder = true.
Proof. destruct b1, b2, b3, b4, b5, b6, b7; reflexivity. Qed.

(** What [addResourceType] returns when it returns: the entry itself, or the
    entry with a non-empty resource-type array. *)
Lemma addResourceType_cases (rule : Rule) (result result' : Entry) :
  addResourceType adguard rule result = Ret result' ->
  result' = result
  \/ exists types,
       types <> []
       /\ (types = ["popup"] \/ isSubsequence types resourceTypeOrder = true)
       /\ result' = with_trigger (set_resource_type (Some types)) result.
Proof.
  unfold addResourceType.
  destruct (Z.eqb (permittedContentType rule) (ALL (contentTypes adguard))
            && Z.eqb (restrictedContentType rule) 0).
  { intros [= <-]. now left. }
  generalize (hasContentType rule (IMAGE (contentTypes adguard))),
    (hasContentType rule (STYLESHEET (contentTypes adguard))),
    (hasContentType rule (SCRIPT (contentTypes adguard))),
    (hasContentType rule (MEDIA (contentTypes adguard))),
    (hasContentType rule (XMLHTTPREQUEST (contentTypes adguard))
     || hasContentType rule (OTHER (contentTypes adguard))
     || hasContentType rule (WEBSOCKET (contentTypes adguard))),
    (hasContentType rule (FONT (contentTypes adguard))),
    (hasContentType rule (SUBDOCUMENT (contentTypes adguard))).
  intros b1 b2 b3 b4 b5 b6 b7 H.
  do 5 (apply bind_Ret in H; destruct H as [_ [_ H]]).
  pose proof (isSubsequence_pick b1 b2 b3 b4 b5 b6 b7) as S.
  set (picked := pushIf b7 "document" _) in *. clearbody picked.
  destruct (isBlockPopups rule).
  - cbn in H. injection H as <-. right. exists ["popup"].
    split; [discriminate |]. split; [now left | reflexivity].
  - destruct picked as [|x rest].
    + cbn in H. injection H as <-. now left.
    + cbn [length Nat.ltb Nat.leb] in H. injection H as <-. right.
      exists (x :: rest). split; [discriminate |]. split; [now right | reflexivity].
Qed.

(** X4. [addResourceType] makes its checks for $object, $object_subrequest,
    $webrtc, $jsinject and $replace only when the content types of the rule are
    not the default ones: a $replace rule or a rule whose sole option is
    JSINJECT passes it exactly when the permitted content types are ALL and no
    content type is restricted, and the entry is then returned as it came. *)
Theorem unsupported_modifiers_pass_on_default_types (rule : Rule) (result : Entry) :
  getReplace rule = true
  \/ isSingleOption rule (JSINJECT (options adguard)) = true ->
  ((exists result', addResourceType adguard rule result = Ret result')
   <-> defaultContentTypes adguard rule = true)
  /\ (defaultContentTypes adguard rule = true ->
      addResourceType adguard rule result = Ret result).
Proof.
  intros M. unfold addResourceType, defaultContentTypes.
  destruct (Z.eqb (permittedContentType rule) (ALL (contentTypes adguard))
            && Z.eqb (restrictedContentType rule) 0).
  - split; [| reflexivity]. split; [reflexivity | intros _; now eexists].
  - split; [| discriminate]. split; [| discriminate].
    intros [result' H].
    do 3 (apply bind_Ret in H; destruct H as [_ [_ H]]).
    apply bind_Ret in H. destruct H as [u [J H]].
    apply bind_Ret in H. destruct H as [u' [R _]].
    destruct M as [M | M].
    + rewrite M in R. discriminate.
    + rewrite M in J. discriminate.
Qed.

(** What [checkWhiteListExceptions] returns: the entry itself, the entry
    without its resource-type key, or the rewritten entry. *)
Lemma checkWhiteListExceptions_cases (rule : Rule) (result result' : Entry) :
  checkWhiteListExceptions adguard rule result = Ret result' ->
  result' = result
  \/ (whiteListRule rule = true /\ isDocumentWhiteList rule = true
      /\ result' = with_trigger (set_resource_type None) result)
  \/ (whiteListRule rule = true
      /\ exists d,
           result' = mkEntry
                       (mkTrigger URL_FILTER_ANY_URL
                                  (url_filter_is_case_sensitive (trigger result))
                                  None
                                  (load_type (trigger result))
                                  (Some [d])
                                  (unless_domain (trigger result)))
                       (action result)).
Proof.
  unfold checkWhiteListExceptions.
  destruct (whiteListRule rule); [| intros [= <-]; now left].
  destruct (isDocumentWhiteList rule || isUrlBlockRule adguard rule
            || isCssExceptionRule adguard rule); [| intros [= <-]; now left].
  destruct (parseRuleDomain adguard (getUrlRuleText rule)) as [[d p]|].
  - cbn [path domain]. destruct (nonTrivialPath p).
    + destruct (isDocumentWhiteList rule); intros [= <-]; [right; left | left]; auto.
    + cbn. intros [= <-]. right. right. split; [reflexivity |]. exists d.
      now destruct (isDocumentWhiteList rule).
  - destruct (isDocumentWhiteList rule); intros [= <-]; [right; left | left]; auto.
Qed.

(** The steps of [convertUrlFilterRule] when it returns an entry. *)
Lemma convertUrlFilterRule_steps (rule : Rule) (e : Entry) :
  convertUrlFilterRule adguard rule = Ret e ->
  isCspRule rule = false
  /\ validateRegExp (createUrlFilterString adguard rule) = Ret tt
  /\ exists typed scoped,
       addResourceType adguard rule
         (setWhiteList rule
            (mkEntry (mkTrigger (createUrlFilterString adguard rule)
                                None None None None None)
                     (mkAction "block" None)))
       = Ret typed
       /\ addDomainOptions adguard
            (addMatchCase (addThirdParty (trigger typed) rule) rule) rule
          = Ret scoped
       /\ checkWhiteListExceptions adguard rule (mkEntry scoped (action typed)) = Ret e
       /\ validateUrlBlockingRule e = Ret tt.
Proof.
  unfold convertUrlFilterRule. intros H.
  apply bind_Ret in H. destruct H as [[] [C H]].
  apply bind_Ret in H. destruct H as [[] [V H]].
  apply bind_Ret in H. destruct H as [typed [T H]].
  apply bind_Ret in H. destruct H as [scoped [S H]].
  apply bind_Ret in H. destruct H as [e' [W H]].
  apply bind_Ret in H. destruct H as [[] [B H]].
  injection H as ->.
  split; [now destruct (isCspRule rule) |]. split; [exact V |].
  exists typed, scoped. auto.
Qed.

Lemma validateRegExp_any_url : validateRegExp URL_FILTER_ANY_URL = Ret tt.
Proof. reflexivity. Qed.

(** X5. The url-filter of the entry of a url rule is the string built by
    [createUrlFilterString], or the any-URL filter after the whitelist rewrite,
    and it passes [validateRegExp]: none of the five forbidden patterns occurs
    in it. *)
Theorem url_entry_filter_valid (rule : Rule) (e : Entry) :
  convertUrlFilterRule adguard rule = Ret e ->
  (url_filter (trigger e) = createUrlFilterString adguard rule
   \/ url_filter (trigger e) = "^[htpsw]+:\/\/")
  /\ validateRegExp (url_filter (trigger e)) = Ret tt
  /\ matchesForbiddenPattern (url_filter (trigger e)) = false.
Proof.
  intros H. apply convertUrlFilterRule_steps in H.
  destruct H as [_ [V [typed [scoped [T [S [W _]]]]]]].
  assert (U : url_filter scoped = createUrlFilterString adguard rule).
  { rewrite addDomainOptions_cases, writeDomainOptions_cases in S.
    apply addResourceType_cases in T.
    assert (U : url_filter (trigger typed) = createUrlFilterString adguard rule).
    { destruct T as [-> | [types [_ [_ ->]]]]; unfold setWhiteList;
        now destruct (whiteListRule rule). }
    destruct (includedDomains adguard rule), (excludedDomains adguard rule);
      try discriminate; injection S as <-; cbn; rewrite <- U;
      unfold addMatchCase, addThirdParty;
      destruct (isMatchCase rule), (isCheckThirdParty rule); reflexivity. }
  assert (F : url_filter (trigger e) = createUrlFilterString adguard rule
              \/ url_filter (trigger e) = "^[htpsw]+:\/\/").
  { apply checkWhiteListExceptions_cases in W.
    destruct W as [-> | [[_ [_ ->]] | [_ [d ->]]]]; cbn; auto. }
  assert (R : validateRegExp (url_filter (trigger e)) = Ret tt).
  { destruct F as [-> | ->]; [exact V | exact validateRegExp_any_url]. }
  split; [exact F |]. split; [exact R |].
  rewrite validateRegExp_order in R. unfold matchesForbiddenPattern.
  destruct (Regex.search reDigitBraces (url_filter (trigger e))); [discriminate |].
  destruct (Regex.search rePipe (url_filter (trigger e))); [discriminate |].
  destruct (Regex.search reNonAscii (url_filter (trigger e))); [discriminate |].
  destruct (Regex.search reNegativeLookahead (url_filter (trigger e))); [discriminate |].
  destruct (Regex.search reMetaCharacter (url_filter (trigger e))); [discriminate |].
  reflexivity.
Qed.

(** The entry [convertUrlFilterRule] hands to [checkWhiteListExceptions]. *)
Lemma convertUrlFilterRule_before_rewrite (rule : Rule) (e : Entry) :
  convertUrlFilterRule adguard rule = Ret e ->
  exists types,
    (types = None
     \/ types = Some ["popup"]
     \/ exists l, types = Some l /\ l <> [] /\ isSubsequence l resourceTypeOrder = true)
    /\ (defaultContentTypes adguard rule = true -> types = None)
    /\ (includedDomains adguard rule = [] \/ excludedDomains adguard rule = [])
    /\ checkWhiteListExceptions adguard rule
         (mkEntry
            (mkTrigger (createUrlFilterString adguard rule)
                       (if isMatchCase rule then Some true else None)
                       types
                       (if isCheckThirdParty rule
                        then Some (if isThirdParty rule then ["third-party"]
                                   else ["first-party"])
                        else None)
                       (domainKey (includedDomains adguard rule))
                       (domainKey (excludedDomains adguard rule)))
            (mkAction (if whiteListRule rule then "ignore-previous-rules" else "block")
                      None))
       = Ret e.
Proof.
  intros H. apply convertUrlFilterRule_steps in H.
  destruct H as [_ [_ [typed [scoped [T [S [W _]]]]]]].
  rewrite addDomainOptions_cases, writeDomainOptions_cases in S.
  assert (D : defaultContentTypes adguard rule = true -> typed
              = setWhiteList rule
                  (mkEntry (mkTrigger (createUrlFilterString adguard rule)
                                      None None None None None)
                           (mkAction "block" None))).
  { intros D. unfold addResourceType in T. unfold defaultContentTypes in D.
    rewrite D in T. now injection T as <-. }
  apply addResourceType_cases in T.
  exists (resource_type (trigger typed)).
  split; [| split; [| split]].
  - destruct T as [-> | [types [N [[-> | P] ->]]]].
    + left. unfold setWhiteList. now destruct (whiteListRule rule).
    + right. now left.
    + right. right. now exists types.
  - intros D'. rewrite (D D'). unfold setWhiteList. now destruct (whiteListRule rule).
  - destruct (includedDomains adguard rule), (excludedDomains adguard rule);
      try discriminate; auto.
  - rewrite <- W. f_equal.
    assert (A : action typed
                = mkAction (if whiteListRule rule then "ignore-previous-rules"
                            else "block") None).
    { destruct T as [-> | [types [_ [_ ->]]]]; unfold setWhiteList;
        now destruct (whiteListRule rule). }
    assert (U : url_filter (trigger typed) = createUrlFilterString adguard rule
                /\ url_filter_is_case_sensitive (trigger typed) = None
                /\ load_type (trigger typed) = None
                /\ if_domain (trigger typed) = None
                /\ unless_domain (trigger typed) = None).
    { destruct T as [-> | [types [_ [_ ->]]]]; unfold setWhiteList;
        now destruct (whiteListRule rule). }
    destruct U as [U1 [U2 [U3 [U4 U5]]]].
    rewrite A. f_equal. clear T D A W.
    destruct typed as [[u c rt l i x] act]. cbn in *. subst u c l i x.
    destruct (includedDomains adguard rule), (excludedDomains adguard rule);
      try discriminate; injection S as <-;
      unfold addMatchCase, addThirdParty;
      destruct (isMatchCase rule), (isCheckThirdParty rule); reflexivity.
Qed.

(** X6. The resource-type key of the entry of a url rule is absent, or is the
    array ["popup"], or is a non-empty selection of image, style-sheet, script,
    media, raw, font, document in this order, each at most once.  It is absent
    when the content types of the rule are the default ones, and for every
    document whitelist rule. *)
Theorem url_entry_resource_types (rule : Rule) (e : Entry) :
  convertUrlFilterRule adguard rule = Ret e ->
  (resource_type (trigger e) = None
   \/ resource_type (trigger e) = Some ["popup"]
   \/ exists l, resource_type (trigger e) = Some l /\ l <> []
                /\ isSubsequence l resourceTypeOrder = true)
  /\ (defaultContentTypes adguard rule = true -> resource_type (trigger e) = None)
  /\ (whiteListRule rule = true -> isDocumentWhiteList rule = true ->
      resource_type (trigger e) = None).
Proof.
  intros H. apply convertUrlFilterRule_before_rewrite in H.
  destruct H as [types [T [D [_ W]]]].
  pose proof W as W'. apply checkWhiteListExceptions_cases in W.
  split; [| split].
  - destruct W as [-> | [[_ [_ ->]] | [_ [d ->]]]]; cbn; auto.
  - intros D'. rewrite (D D') in *.
    destruct W as [-> | [[_ [_ ->]] | [_ [d ->]]]]; reflexivity.
  - intros Wl Doc. clear W. unfold checkWhiteListExceptions in W'.
    rewrite Wl, Doc in W'. cbn [orb] in W'.
    destruct (parseRuleDomain adguard (getUrlRuleText rule)) as [[d p]|].
    + cbn [path domain] in W'. destruct (nonTrivialPath p).
      * now injection W' as <-.
      * cbn in W'. now injection W' as <-.
    + now injection W' as <-.
Qed.

(** X7. In the entry of a url rule the action type is block, or
    ignore-previous-rules for an exception rule, and there is no selector; the
    load-type key is present exactly for a rule that checks the party, with the
    one value third-party or first-party; the case-sensitivity key is present,
    and true, exactly for a match-case rule.  The whitelist rewrite changes
    none of them.  A rule with domains on both sides gives no entry. *)
Theorem url_entry_flags (rule : Rule) (e : Entry) :
  convertUrlFilterRule adguard rule = Ret e ->
  action e = mkAction (if whiteListRule rule then "ignore-previous-rules" else "block")
                      None
  /\ load_type (trigger e)
     = (if isCheckThirdParty rule
        then Some (if isThirdParty rule then ["third-party"] else ["first-party"])
        else None)
  /\ url_filter_is_case_sensitive (trigger e)
     = (if isMatchCase rule then Some true else None)
  /\ (includedDomains adguard rule = [] \/ excludedDomains adguard rule = []).
Proof.
  intros H. apply convertUrlFilterRule_before_rewrite in H.
  destruct H as [types [_ [_ [X W]]]].
  apply checkWhiteListExceptions_cases in W.
  destruct W as [-> | [[_ [_ ->]] | [_ [d ->]]]]; cbn; auto.
Qed.

(** X8. A blocking entry for documents is returned only with a scope: when the
    entry of a url rule has the type block and document among its resource
    types, it has an if-domain key or the load type third-party. *)
Theorem url_entry_document_block_scoped (rule : Rule) (e : Entry) :
  convertUrlFilterRule adguard rule = Ret e -> documentBlockScoped e.
Proof.
  intros H. apply convertUrlFilterRule_steps in H.
  destruct H as [_ [_ [typed [scoped [_ [_ [_ B]]]]]]].
  unfold validateUrlBlockingRule in B. apply throwIf_not in B.
  intros A [types [R D]]. rewrite A, R, D in B. cbn in B.
  destruct (if_domain (trigger e)) as [ds|]; [left; discriminate |].
  right. destruct (load_type (trigger e)) as [l|]; [| discriminate].
  exists l. split; [reflexivity |]. cbn in B. now apply negb_false_iff in B.
Qed.

(** ** The url-filter string *)

Lemma startsAt0_prefix (pat s : string) :
  startsAt0 pat s = true <-> String.prefix pat s = true.
Proof.
  unfold startsAt0, JsString.indexOf. split.
  - destruct (String.prefix pat s) eqn:P; [reflexivity |].
    destruct s as [|c s]; cbn [JsString.indexOfAux]; rewrite P; [discriminate |].
    destruct (JsString.indexOfAux pat s 1) as [j|] eqn:E; [| discriminate].
    apply indexOfAux_lower in E. destruct j; [lia | discriminate].
  - intros P. now rewrite (indexOfAux_prefix _ _ 0 P).
Qed.

(** X9. The url-filter string of a url rule is not empty, provided the source of
    the regular expression of a regex rule is not empty.  For a rule whose
    permitted content type is WEBSOCKET alone and that is no regex rule, the
    string starts with ^ or with ws. *)
Theorem createUrlFilterString_start (rule : Rule) :
  (urlRegExp rule <> Some "" -> createUrlFilterString adguard rule <> "")
  /\ (permittedContentType rule = WEBSOCKET (contentTypes adguard) ->
      isRegexRule rule = false \/ urlRegExp rule = None ->
      String.prefix "^" (createUrlFilterString adguard rule) = true
      \/ String.prefix "ws" (createUrlFilterString adguard rule) = true).
Proof.
  unfold createUrlFilterString. split.
  - intros N.
    destruct (existsb (String.eqb (getUrlRuleText rule)) ANY_URL_TEMPLATES).
    { now destruct (Z.eqb (permittedContentType rule) (WEBSOCKET (contentTypes adguard))). }
    assert (G : (let urlRegExpSource := getUrlRegExpSource rule in
                 if negb (JsString.truthy urlRegExpSource) then URL_FILTER_ANY_URL
                 else if Z.eqb (permittedContentType rule)
                               (WEBSOCKET (contentTypes adguard))
                         && negb (startsAt0 "^" urlRegExpSource)
                         && negb (startsAt0 "ws" urlRegExpSource)
                      then URL_FILTER_WS_ANY_URL ++ ".*" ++ urlRegExpSource
                      else urlRegExpSource) <> "").
    { cbv zeta. destruct (getUrlRegExpSource rule) as [|c src]; cbn [JsString.truthy negb].
      - discriminate.
      - destruct (Z.eqb (permittedContentType rule) (WEBSOCKET (contentTypes adguard))
                  && negb (startsAt0 "^" (String c src))
                  && negb (startsAt0 "ws" (String c src))); discriminate. }
    destruct (isRegexRule rule); [| exact G].
    destruct (urlRegExp rule) as [[|c src]|]; [congruence | discriminate | exact G].
  - intros W R. rewrite W, Z.eqb_refl.
    destruct (existsb (String.eqb (getUrlRuleText rule)) ANY_URL_TEMPLATES).
    { now left. }
    assert (G : String.prefix "^"
                  (let urlRegExpSource := getUrlRegExpSource rule in
                   if negb (JsString.truthy urlRegExpSource) then URL_FILTER_ANY_URL
                   else if true && negb (startsAt0 "^" urlRegExpSource)
                                && negb (startsAt0 "ws" urlRegExpSource)
                        then URL_FILTER_WS_ANY_URL ++ ".*" ++ urlRegExpSource
                        else urlRegExpSource) = true
                \/ String.prefix "ws"
                     (let urlRegExpSource := getUrlRegExpSource rule in
                      if negb (JsString.truthy urlRegExpSource) then URL_FILTER_ANY_URL
                      else if true && negb (startsAt0 "^" urlRegExpSource)
                                   && negb (startsAt0 "ws" urlRegExpSource)
                           then URL_FILTER_WS_ANY_URL ++ ".*" ++ urlRegExpSource
                           else urlRegExpSource) = true).
    { cbv zeta. destruct (JsString.truthy (getUrlRegExpSource rule)); cbn [negb].
      - destruct (startsAt0 "^" (getUrlRegExpSource rule)) eqn:S1; cbn [negb andb].
        + left. now apply startsAt0_prefix.
        + destruct (startsAt0 "ws" (getUrlRegExpSource rule)) eqn:S2; cbn [negb].
          * right. now apply startsAt0_prefix.
          * left. reflexivity.
      - now left. }
    destruct R as [-> | ->]; [exact G |].
    destruct (isRegexRule rule); exact G.
Qed.

(** ** parseRuleDomain *)

Lemma skip_skip (a : nat) : forall (b : nat) (s : string),
  JsString.skip a (JsString.skip b s) = JsString.skip (b + a) s.
Proof.
  intros b. induction b as [|b IH]; intros s.
  - reflexivity.
  - destruct s as [|c s]; cbn [JsString.skip Nat.add].
    + now destruct a.
    + apply IH.
Qed.

Lemma skip_suffix (n : nat) : forall s, exists before, s = before ++ JsString.skip n s.
Proof.
  induction n as [|n IH]; intros s.
  - now exists "".
  - destruct s as [|c s]; cbn [JsString.skip].
    + now exists "".
    + destruct (IH s) as [before E]. exists (String c before). cbn. now rewrite <- E.
Qed.

(** Where [indexOf] finds the pattern, the pattern stands. *)
Lemma indexOfAux_sound (pat : string) : forall (s : string) (pos j : nat),
  JsString.indexOfAux pat s pos = Some j ->
  String.prefix pat (JsString.skip (j - pos) s) = true.
Proof.
  induction s as [|c s IH]; intros pos j; cbn [JsString.indexOfAux].
  - destruct (String.prefix pat "") eqn:P; [| discriminate].
    intros [= <-]. now rewrite Nat.sub_diag.
  - destruct (String.prefix pat (String c s)) eqn:P.
    + intros [= <-]. now rewrite Nat.sub_diag.
    + intros H. pose proof (indexOfAux_lower _ _ _ H) as L.
      apply IH in H. replace (j - pos) with (S (j - S pos)) by lia. exact H.
Qed.

Lemma indexOfFrom_sound (pat s : string) (from j : nat) :
  JsString.indexOfFrom pat s from = Some j ->
  String.prefix pat (JsString.skip j s) = true.
Proof.
  unfold JsString.indexOfFrom. intros H.
  pose proof (indexOfAux_lower _ _ _ H) as L.
  apply indexOfAux_sound in H. rewrite skip_skip in H.
  now replace (from + (j - from)) with j in H by lia.
Qed.

(** X10. When [parseRuleDomain] returns a path, the path is the end of the rule
    text from the first slash on, or, when the text has no slash after the
    start of the domain, from the first caret on: it begins with a slash or
    with a caret.  The raw domain it accepted is a word of the domain-name
    pattern. *)
Theorem parseRuleDomain_path (ruleText : string) (parsed : ParsedDomain) (p : string) :
  parseRuleDomain adguard ruleText = Some parsed ->
  path parsed = Some p ->
  (String.prefix "/" p = true \/ String.prefix "^" p = true)
  /\ exists before, ruleText = before ++ p
       /\ exists raw, Regex.matches domainNameRegex raw = true
                      /\ domain parsed = JsString.toLowerCase (toPunyCode adguard raw).
Proof.
  unfold parseRuleDomain.
  set (startIndex := match JsString.indexOf "domain=" ruleText,
                           JsString.indexOf "$" ruleText with
                     | Some domainIndex, Some _ => domainIndex + String.length "domain="
                     | _, _ => firstPrefixLength _ ruleText
                     end).
  destruct (firstSymbolIndex ["/"; "^"] ruleText startIndex) as [i|] eqn:F.
  - destruct (Regex.matches domainNameRegex
                (JsString.substring2 startIndex i ruleText)) eqn:M;
      cbn [negb]; [| discriminate].
    intros [= <-]. cbn [path domain]. intros [= <-].
    split.
    + cbn [firstSymbolIndex] in F.
      destruct (JsString.indexOfFrom "/" ruleText startIndex) as [a|] eqn:A.
      * injection F as <-. left. eapply indexOfFrom_sound; eassumption.
      * destruct (JsString.indexOfFrom "^" ruleText startIndex) as [b|] eqn:B;
          [| discriminate].
        injection F as <-. right. eapply indexOfFrom_sound; eassumption.
    + destruct (skip_suffix i ruleText) as [before E]. exists before.
      split; [exact E |]. eexists. split; [exact M | reflexivity].
  - destruct (Regex.matches domainNameRegex (JsString.skip startIndex ruleText));
      cbn [negb]; [| discriminate].
    intros [= <-]. discriminate.
Qed.

(** ** arrayToMap *)

Lemma mapGet_mapPush {A : Type} (k k' : string) (el : A) (map : list (string * list A)) :
  mapGet k (mapPush k' el map)
  = if String.eqb k' k
    then Some (push (match mapGet k map with Some els => els | None => [] end) el)
    else mapGet k map.
Proof.
  induction map as [|[k0 els] rest IH]; cbn [mapPush mapGet].
  - reflexivity.
  - destruct (String.eqb_spec k0 k') as [-> | N]; cbn [mapGet].
    + now destruct (String.eqb k' k).
    + rewrite IH. destruct (String.eqb_spec k0 k) as [-> | N'].
      * destruct (String.eqb_spec k' k) as [-> | _]; [now elim N | reflexivity].
      * reflexivity.
Qed.

Lemma mapGet_fold {A : Type} (key : A -> string) (k : string) (array : list A) :
  forall map,
    mapGet k (fold_left (fun map el => mapPush (key el) el map) array map)
    = match mapGet k map, filter (fun el => String.eqb (key el) k) array with
      | None, [] => None
      | None, found => Some found
      | Some els, found => Some (els ++ found)%list
      end.
Proof.
  induction array as [|el array IH]; intros map; cbn [fold_left filter].
  - destruct (mapGet k map); [now rewrite app_nil_r | reflexivity].
  - rewrite IH, mapGet_mapPush.
    destruct (String.eqb (key el) k).
    + unfold push. destruct (mapGet k map) as [els|].
      * now rewrite <- app_assoc.
      * reflexivity.
    + reflexivity.
Qed.

(** X11. Looking a key up in the map [arrayToMap] builds gives the elements of
    the array that have this key, in array order, and nothing when no element
    has it: every element is in the group of its key and in no other. *)
Theorem arrayToMap_lookup {A : Type} (key : A -> string) (array : list A) (k : string) :
  mapGet k (arrayToMap key array)
  = match filter (fun el => String.eqb (key el) k) array with
    | [] => None
    | found => Some found
    end.
Proof. unfold arrayToMap. now rewrite mapGet_fold. Qed.

Lemma mapPush_keys {A : Type} (k : string) (el : A) (map : list (string * list A)) :
  List.map fst (mapPush k el map)
  = if existsb (fun k0 => String.eqb k0 k) (List.map fst map)
    then List.map fst map
    else (List.map fst map ++ [k])%list.
Proof.
  induction map as [|[k0 els] rest IH]; cbn [mapPush List.map fst existsb].
  - reflexivity.
  - destruct (String.eqb k0 k); cbn [List.map fst orb].
    + reflexivity.
    + rewrite IH. now destruct (existsb _ (List.map fst rest)).
Qed.

Lemma mapPush_NoDup {A : Type} (k : string) (el : A) (map : list (string * list A)) :
  NoDup (List.map fst map) -> NoDup (List.map fst (mapPush k el map)).
Proof.
  intros N. rewrite mapPush_keys.
  destruct (existsb (fun k0 => String.eqb k0 k) (List.map fst map)) eqn:E; [exact N |].
  apply NoDup_app; [exact N | repeat constructor; intros [] |].
  intros x I J. destruct J as [<- | []].
  assert (X : existsb (fun k0 => String.eqb k0 k) (List.map fst map) = true).
  { apply existsb_exists. exists k. split; [exact I | apply String.eqb_refl]. }
  congruence.
Qed.

(** The keys of the map are all different. *)
Lemma arrayToMap_NoDup {A : Type} (key : A -> string) (array : list A) :
  NoDup (List.map fst (arrayToMap key array)).
Proof.
  unfold arrayToMap.
  assert (G : forall map, NoDup (List.map fst map) ->
                          NoDup (List.map fst
                                   (fold_left (fun map el => mapPush (key el) el map)
                                              array map))).
  { induction array as [|el array IH]; intros map N; cbn [fold_left].
    - exact N.
    - apply IH. now apply mapPush_NoDup. }
  apply G. constructor.
Qed.

Lemma mapGet_In {A : Type} (k : string) (els : list A) (map : list (string * list A)) :
  NoDup (List.map fst map) -> In (k, els) map -> mapGet k map = Some els.
Proof.
  induction map as [|[k0 els0] rest IH]; cbn [mapGet List.map fst].
  - intros _ [].
  - intros N [[= -> ->] | I].
    + now rewrite String.eqb_refl.
    + apply NoDup_cons_iff in N. destruct N as [N1 N2].
      destruct (String.eqb_spec k0 k) as [-> | _].
      * elim N1. apply in_map_iff. now exists (k, els).
      * now apply IH.
Qed.

Lemma mapGet_absent {A : Type} (k : string) (map : list (string * list A)) :
  ~ In k (List.map fst map) -> mapGet k map = None.
Proof.
  induction map as [|[k0 els0] rest IH]; cbn [mapGet List.map fst]; [reflexivity |].
  intros N. destruct (String.eqb_spec k0 k) as [-> | _].
  - elim N. now left.
  - apply IH. intros I. apply N. now right.
Qed.

(** ** The CSS exception applier *)

Lemma nth_error_update {A : Type} (f : A -> A) (store : list A) :
  forall i j,
    nth_error (update i f store) j
    = if Nat.eqb i j then option_map f (nth_error store j) else nth_error store j.
Proof.
  induction store as [|x store IH]; intros i j.
  - destruct i as [|i], j as [|j]; cbn; try reflexivity.
    now destruct (Nat.eqb i j).
  - destruct i as [|i], j as [|j]; cbn; try reflexivity. apply IH.
Qed.

Lemma pushExceptionDomains_app (a b : list string) (rule : Entry) :
  pushExceptionDomains (a ++ b) rule
  = pushExceptionDomains b (pushExceptionDomains a rule).
Proof. apply fold_left_app. Qed.

Lemma update_domains_nth (idx : nat) (hosts : list string) :
  forall (store : list Entry) (j : nat),
    nth_error (fold_left (fun store d => update idx (pushExceptionDomain d) store)
                         hosts store) j
    = if Nat.eqb idx j
      then option_map (pushExceptionDomains hosts) (nth_error store j)
      else nth_error store j.
Proof.
  induction hosts as [|d hosts IH]; intros store j; cbn [fold_left].
  - destruct (Nat.eqb idx j); [now destruct (nth_error store j) | reflexivity].
  - rewrite IH, nth_error_update.
    destruct (Nat.eqb idx j); [now destruct (nth_error store j) | reflexivity].
Qed.

Lemma exceptionIterator_nth (exc : Entry) (selectorRules : list nat) :
  NoDup selectorRules ->
  forall (store : list Entry) (j : nat),
    nth_error (exceptionIterator selectorRules store exc) j
    = if existsb (Nat.eqb j) selectorRules
      then option_map (pushExceptionDomains (domainsOf (if_domain (trigger exc))))
                      (nth_error store j)
      else nth_error store j.
Proof.
  unfold exceptionIterator.
  assert (S : forall store idx,
             match if_domain (trigger exc) with
             | Some exceptionDomains =>
                 fold_left (fun store domain =>
                              update idx (pushExceptionDomain domain) store)
                           exceptionDomains store
             | None => store
             end
             = fold_left (fun store d => update idx (pushExceptionDomain d) store)
                         (domainsOf (if_domain (trigger exc))) store).
  { intros store idx. now destruct (if_domain (trigger exc)). }
  induction selectorRules as [|idx rest IH]; intros N store j; cbn [fold_left existsb].
  - reflexivity.
  - apply NoDup_cons_iff in N. destruct N as [N1 N2].
    rewrite (IH N2), S, update_domains_nth.
    rewrite (Nat.eqb_sym j idx).
    destruct (Nat.eqb_spec idx j) as [-> | _]; cbn [orb]; [| reflexivity].
    destruct (existsb (Nat.eqb j) rest) eqn:E; [| reflexivity].
    apply existsb_exists in E. destruct E as [x [I X]].
    apply Nat.eqb_eq in X. subst x. contradiction.
Qed.

Lemma exceptionIterators_nth (selectorRules : list nat) (exceptions : list Entry) :
  NoDup selectorRules ->
  forall (store : list Entry) (j : nat),
    nth_error (fold_left (exceptionIterator selectorRules) exceptions store) j
    = if existsb (Nat.eqb j) selectorRules
      then option_map
             (pushExceptionDomains
                (flat_map (fun exc => domainsOf (if_domain (trigger exc))) exceptions))
             (nth_error store j)
      else nth_error store j.
Proof.
  intros N. induction exceptions as [|exc exceptions IH]; intros store j;
    cbn [fold_left flat_map].
  - destruct (existsb (Nat.eqb j) selectorRules);
      [now destruct (nth_error store j) | reflexivity].
  - rewrite IH, (exceptionIterator_nth exc N).
    destruct (existsb (Nat.eqb j) selectorRules); [| reflexivity].
    destruct (nth_error store j); cbn [option_map]; [| reflexivity].
    now rewrite pushExceptionDomains_app.
Qed.

Lemma existsb_filter_seq (test : nat -> bool) (n j : nat) :
  existsb (Nat.eqb j) (filter test (seq 0 n)) = (j <? n)%nat && test j.
Proof.
  destruct (existsb (Nat.eqb j) (filter test (seq 0 n))) eqn:E.
  - apply existsb_exists in E. destruct E as [x [I X]].
    apply Nat.eqb_eq in X. subst x. apply filter_In in I. destruct I as [I T].
    apply in_seq in I. rewrite T. symmetry. apply andb_true_iff. split; [| reflexivity].
    apply Nat.ltb_lt. lia.
  - destruct ((j <? n)%nat && test j) eqn:X; [| reflexivity].
    apply andb_true_iff in X. destruct X as [L T]. apply Nat.ltb_lt in L.
    assert (Y : existsb (Nat.eqb j) (filter test (seq 0 n)) = true).
    { apply existsb_exists. exists j. split; [| apply Nat.eqb_refl].
      apply filter_In. split; [apply in_seq; lia | exact T]. }
    congruence.
Qed.

(** X12. [applyCssExceptions] gives every hide entry, in array order, the
    if-domain hosts of the exception entries that have its selector, pushed one
    by one with [pushExceptionDomain] in the order of the exceptions, and then
    leaves out the entries that have both domain arrays filled.  Entries whose
    selector no exception has are not changed. *)
Theorem applyCssExceptions_spec (cssBlocking cssExceptions : list Entry) :
  applyCssExceptions cssBlocking cssExceptions
  = filter (fun r => negb (bothDomains r))
      (map (fun rule =>
              pushExceptionDomains (exceptionHosts cssExceptions (selectorKey rule)) rule)
           cssBlocking).
Proof.
  unfold applyCssExceptions. f_equal.
  set (dflt := mkEntry (mkTrigger "" None None None None None) (mkAction "" None)).
  set (keyAt := fun i => selectorKey (nth i cssBlocking dflt)).
  set (n := length cssBlocking).
  set (step := fun (store : list Entry) (entry : string * list Entry) =>
                 let '(selector, selectorExceptions) := entry in
                 match mapGet selector (arrayToMap keyAt (seq 0 n)) with
                 | Some selectorRules =>
                     fold_left (exceptionIterator selectorRules) selectorExceptions store
                 | None => store
                 end).
  assert (S : forall store selector es j,
             nth_error (step store (selector, es)) j
             = if (j <? n)%nat && String.eqb (keyAt j) selector
               then option_map
                      (pushExceptionDomains
                         (flat_map (fun exc => domainsOf (if_domain (trigger exc))) es))
                      (nth_error store j)
               else nth_error store j).
  { intros store selector es j. cbn [step].
    rewrite arrayToMap_lookup.
    rewrite <- (existsb_filter_seq (fun i => String.eqb (keyAt i) selector) n j).
    destruct (filter (fun el => String.eqb (keyAt el) selector) (seq 0 n))
      as [|i idxs] eqn:F.
    - reflexivity.
    - rewrite <- F. apply exceptionIterators_nth.
      apply NoDup_filter, seq_NoDup. }
  assert (G : forall (m : list (string * list Entry)),
             NoDup (List.map fst m) ->
             forall store j,
               nth_error (fold_left step m store) j
               = if (j <? n)%nat
                 then option_map
                        (pushExceptionDomains
                           (flat_map (fun exc => domainsOf (if_domain (trigger exc)))
                                     (match mapGet (keyAt j) m with
                                      | Some es => es
                                      | None => []
                                      end)))
                        (nth_error store j)
                 else nth_error store j).
  { induction m as [|[selector es] m IH]; intros N store j.
    - cbn [fold_left mapGet flat_map].
      destruct (j <? n)%nat; [now destruct (nth_error store j) | reflexivity].
    - cbn [List.map fst] in N. apply NoDup_cons_iff in N. destruct N as [N1 N2].
      cbn [fold_left]. rewrite (IH N2), S. cbn [mapGet].
      destruct (j <? n)%nat; cbn [andb]; [| reflexivity].
      rewrite (String.eqb_sym (keyAt j) selector).
      destruct (String.eqb_spec selector (keyAt j)) as [-> | _].
      + rewrite (mapGet_absent _ _ N1). cbn [flat_map].
        now destruct (nth_error store j).
      + reflexivity. }
  apply nth_error_ext. intros j.
  fold dflt keyAt n. fold step.
  rewrite (G _ (arrayToMap_NoDup selectorKey cssExceptions)), nth_error_map.
  rewrite arrayToMap_lookup.
  destruct (Nat.ltb_spec j n) as [L | L].
  - destruct (nth_error cssBlocking j) as [rule|] eqn:E; cbn [option_map]; [| reflexivity].
    f_equal. unfold exceptionHosts.
    assert (K : keyAt j = selectorKey rule).
    { unfold keyAt. now rewrite (nth_error_nth _ _ dflt E). }
    rewrite K.
    now destruct (filter (fun el => String.eqb (selectorKey el) (selectorKey rule))
                         cssExceptions).
  - assert (E : nth_error cssBlocking j = None) by (apply nth_error_None; exact L).
    now rewrite E.
Qed.

Lemma pushExceptionDomain_unlessAdded (host : string) (rule : Entry) :
  pushExceptionDomain host rule
  = if applicableHost rule host then unlessAdded [host] rule else rule.
Proof.
  unfold pushExceptionDomain, applicableHost, unlessAdded, push, domainsOf.
  destruct (if_domain (trigger rule)) as [[|p ps]|]; cbn [negb]; try reflexivity.
  now destruct (existsb (fun permitted => isSubstringOf permitted host) (p :: ps)).
Qed.

Lemma unlessAdded_again (host : string) (hosts : list string) (rule : Entry) :
  unlessAdded hosts (unlessAdded [host] rule) = unlessAdded (host :: hosts) rule.
Proof.
  destruct rule as [[u c rt l i x] a]. destruct hosts as [|h hosts]; [reflexivity |].
  unfold unlessAdded, with_trigger, set_unless_domain, domainsOf. cbn.
  now rewrite <- app_assoc.
Qed.

Lemma applicableHost_unlessAdded (hosts : list string) (rule : Entry) (host : string) :
  applicableHost (unlessAdded hosts rule) host = applicableHost rule host.
Proof. now destruct hosts. Qed.

(** The hosts pushed one by one: those that pass the test, appended together. *)
Lemma pushExceptionDomains_unlessAdded (hosts : list string) :
  forall rule,
    pushExceptionDomains hosts rule
    = unlessAdded (filter (applicableHost rule) hosts) rule.
Proof.
  unfold pushExceptionDomains.
  induction hosts as [|host hosts IH]; intros rule; cbn [fold_left filter].
  - reflexivity.
  - rewrite IH, pushExceptionDomain_unlessAdded.
    destruct (applicableHost rule host) eqn:A; [| reflexivity].
    rewrite (filter_ext _ (applicableHost rule)
               (fun h => applicableHost_unlessAdded [host] rule h)).
    apply unlessAdded_again.
Qed.

Lemma unlessAdded_nonEmpty (hosts : list string) (rule : Entry) :
  hosts <> [] -> nonEmpty (unless_domain (trigger (unlessAdded hosts rule))) = true.
Proof.
  destruct hosts as [|h hosts]; [congruence |]. intros _. cbn.
  now destruct (domainsOf (unless_domain (trigger rule))).
Qed.

Lemma unlessAdded_if_domain (hosts : list string) (rule : Entry) :
  if_domain (trigger (unlessAdded hosts rule)) = if_domain (trigger rule).
Proof. now destruct hosts. Qed.

(** X13. Every entry that leaves [applyCssExceptions] is a hide entry of the
    input with the applicable exception hosts of its selector appended to its
    unless-domain array, and nothing else changed.  A host is applicable to an
    entry without if-domain hosts always, and to an entry with if-domain hosts
    when one of them occurs in it; so an entry with if-domain hosts leaves
    unchanged or not at all. *)
Theorem css_exceptions_outcome (cssBlocking cssExceptions : list Entry) (r : Entry) :
  In r (applyCssExceptions cssBlocking cssExceptions) ->
  exists r0,
    In r0 cssBlocking
    /\ r = unlessAdded
             (filter (applicableHost r0) (exceptionHosts cssExceptions (selectorKey r0)))
             r0
    /\ bothDomains r = false
    /\ (nonEmpty (if_domain (trigger r0)) = true -> r = r0).
Proof.
  rewrite applyCssExceptions_spec, filter_In, in_map_iff, negb_true_iff.
  intros [[r0 [E I]] B]. exists r0.
  rewrite pushExceptionDomains_unlessAdded in E.
  split; [exact I |]. split; [now symmetry |]. split; [exact B |].
  intros N. subst r.
  destruct (filter (applicableHost r0) (exceptionHosts cssExceptions (selectorKey r0)))
    as [|h hosts] eqn:F; [reflexivity |].
  unfold bothDomains in B.
  rewrite unlessAdded_if_domain, N, unlessAdded_nonEmpty in B by discriminate.
  discriminate.
Qed.

(** ** The CSS compactor *)

Lemma compactLoop_scoped (cssBlocking : list Entry) :
  forall (acc : CssCompact) (pending : list string),
    compactDomainSensitive (fst (compactLoop cssBlocking acc pending))
    = (compactDomainSensitive acc
       ++ filter (fun r => hasKey (if_domain (trigger r))) cssBlocking)%list
    /\ compactGenericDomainSensitive (fst (compactLoop cssBlocking acc pending))
       = (compactGenericDomainSensitive acc
          ++ filter (fun r => negb (hasKey (if_domain (trigger r)))
                              && hasKey (unless_domain (trigger r)))
                    cssBlocking)%list.
Proof.
  induction cssBlocking as [|rule rest IH]; intros acc pending;
    cbn [compactLoop filter].
  - now rewrite !app_nil_r.
  - destruct (if_domain (trigger rule)) as [ds|]; cbn [hasKey negb andb].
    + destruct (IH (mkCssCompact (compactWide acc)
                                 (push (compactDomainSensitive acc) rule)
                                 (compactGenericDomainSensitive acc)) pending)
        as [D G].
      rewrite D, G. cbn [compactDomainSensitive compactGenericDomainSensitive].
      unfold push. now rewrite <- app_assoc.
    + destruct (unless_domain (trigger rule)) as [ds|]; cbn [hasKey].
      * destruct (IH (mkCssCompact (compactWide acc) (compactDomainSensitive acc)
                                   (push (compactGenericDomainSensitive acc) rule))
                     pending) as [D G].
        rewrite D, G. cbn [compactDomainSensitive compactGenericDomainSensitive].
        unfold push. now rewrite <- app_assoc.
      * destruct (Nat.leb MAX_SELECTORS_PER_WIDE_RULE
                          (length (push pending (joinedSelector rule)))).
        -- destruct (IH (mkCssCompact
                           (addWideRule (push pending (joinedSelector rule))
                                        (compactWide acc))
                           (compactDomainSensitive acc)
                           (compactGenericDomainSensitive acc)) []) as [D G].
           now rewrite D, G.
        -- destruct (IH acc (push pending (joinedSelector rule))) as [D G].
           now rewrite D, G.
Qed.

(** X14. [compactCssRules] keeps the scoped hide entries as they are and in
    their order: cssBlockingDomainSensitive holds the entries that have an
    if-domain key, cssBlockingGenericDomainSensitive those that have an
    unless-domain key and no if-domain key.  Only the entries with neither key
    are merged into wide entries. *)
Theorem compactCssRules_scoped (cssBlocking : list Entry) :
  compactDomainSensitive (compactCssRules cssBlocking)
  = filter (fun r => hasKey (if_domain (trigger r))) cssBlocking
  /\ compactGenericDomainSensitive (compactCssRules cssBlocking)
     = filter (fun r => negb (hasKey (if_domain (trigger r)))
                        && hasKey (unless_domain (trigger r)))
              cssBlocking.
Proof.
  unfold compactCssRules.
  destruct (compactLoop_scoped cssBlocking (mkCssCompact [] [] []) []) as [D G].
  destruct (compactLoop cssBlocking (mkCssCompact [] [] []) []) as [acc pending].
  cbn [fst] in *. cbn [compactDomainSensitive compactGenericDomainSensitive] in *.
  now split.
Qed.

(** ** Invariants of the emitted entries *)

Lemma routeItem_grouped (agRule : Rule) (item : Entry) (g : Grouping) (x : Entry) :
  In x (groupedEntries (routeItem adguard agRule item g)) ->
  x = item \/ In x (groupedEntries g).
Proof.
  unfold routeItem, groupedEntries, categories.
  repeat match goal with
         | |- context [if ?c then _ else _] => destruct c
         end;
    cbn [contentBlocker cssBlocking cssExceptions inContentBlocker
         push_important push_urlBlocking push_cssBlockingGenericHideExceptions
         push_cssElemhide push_importantExceptions push_documentExceptions
         push_other cssBlockingWide cssBlockingGenericDomainSensitive
         cssBlockingGenericHideExceptions cssBlockingDomainSensitive cssElemhide
         urlBlocking other important importantExceptions documentExceptions
         List.concat];
    unfold push; rewrite ?in_app_iff; cbn [In]; intuition.
Qed.

Lemma groupRule_grouped (P : Entry -> Prop) (bads : list string) (agRule : Rule)
      (g : Grouping) :
  (forall e, convertAGRuleToCB adguard (Some agRule) = Ret e -> P e) ->
  Forall P (groupedEntries g) ->
  Forall P (groupedEntries (groupRule adguard bads g agRule)).
Proof.
  intros C F. unfold groupRule.
  destruct (listHas (ruleText agRule) bads); [exact F |].
  unfold convertAGRule.
  destruct (convertAGRuleToCB adguard (Some agRule)) as [item|ex] eqn:E.
  - apply Forall_forall. intros x I. apply routeItem_grouped in I.
    destruct I as [-> | I]; [now apply C |].
    rewrite Forall_forall in F. now apply F.
  - exact F.
Qed.

Lemma groupRules_grouped (P : Entry -> Prop) (bads : list string) (agRules : list Rule) :
  (forall r e, In r agRules -> convertAGRuleToCB adguard (Some r) = Ret e -> P e) ->
  forall g,
    Forall P (groupedEntries g) ->
    Forall P (groupedEntries (groupRules adguard bads agRules g)).
Proof.
  unfold groupRules.
  induction agRules as [|agRule agRules IH]; intros C g F; cbn [fold_left].
  - exact F.
  - apply IH.
    + intros r e I. apply C. now right.
    + apply groupRule_grouped; [| exact F]. intros e. apply C. now left.
Qed.

Lemma pushExceptionDomains_keeps (P : Entry -> Prop) (hosts : list string) :
  (forall d e, P e -> P (pushExceptionDomain d e)) ->
  forall e, P e -> P (pushExceptionDomains hosts e).
Proof.
  intros K. unfold pushExceptionDomains.
  induction hosts as [|d hosts IH]; intros e H; cbn [fold_left]; [exact H |].
  apply IH. now apply K.
Qed.

Lemma applyCssExceptions_keeps (P : Entry -> Prop) (cssBlocking cssExceptions : list Entry) :
  (forall d e, P e -> P (pushExceptionDomain d e)) ->
  Forall P cssBlocking ->
  Forall P (applyCssExceptions cssBlocking cssExceptions).
Proof.
  intros K F. rewrite applyCssExceptions_spec.
  apply Forall_forall. intros x I. apply filter_In in I. destruct I as [I _].
  apply in_map_iff in I. destruct I as [r [<- I]].
  apply pushExceptionDomains_keeps; [exact K |].
  rewrite Forall_forall in F. now apply F.
Qed.

Lemma compactCssRules_keeps (P : Entry -> Prop) (cssBlocking : list Entry) :
  (forall batch, P (wideEntry batch)) ->
  Forall P cssBlocking ->
  Forall P (compactWide (compactCssRules cssBlocking))
  /\ Forall P (compactDomainSensitive (compactCssRules cssBlocking))
  /\ Forall P (compactGenericDomainSensitive (compactCssRules cssBlocking)).
Proof.
  intros W F. destruct (compactCssRules_scoped cssBlocking) as [-> ->].
  destruct (compactCssRules_batches cssBlocking) as [full [rest [-> _]]].
  rewrite Forall_forall in F.
  repeat split; apply Forall_forall; intros x I.
  - apply in_map_iff in I. destruct I as [batch [<- _]]. apply W.
  - apply filter_In in I. now apply F.
  - apply filter_In in I. now apply F.
Qed.

(** A property of entries that every converted rule has, that
    [pushExceptionDomain] keeps and that the wide entries have, holds for every
    entry of the ten categories. *)
Lemma convertLines_keeps (P : Entry -> Prop) (rules : list RuleInput) (optimize : bool) :
  (forall r e, In r (translatedRules adguard rules) ->
               convertAGRuleToCB adguard (Some r) = Ret e -> P e) ->
  (forall d e, P e -> P (pushExceptionDomain d e)) ->
  (forall batch, P (wideEntry batch)) ->
  Forall P (List.concat (categories (convertLines adguard rules optimize))).
Proof.
  intros C K W. unfold convertLines. rewrite groupRules_translated.
  fold (translatedRules adguard rules).
  set (g := groupRules adguard [] (translatedRules adguard rules) _).
  assert (G : Forall P (groupedEntries g)).
  { apply groupRules_grouped; [exact C | constructor]. }
  unfold groupedEntries, categories in G. cbn [List.concat] in G.
  rewrite !Forall_app in G.
  destruct G as [[G1 [G2 [G3 [G4 [G5 [G6 [G7 [G8 [G9 [G10 _]]]]]]]]]] [B X]].
  destruct (@compactCssRules_keeps P
              (applyCssExceptions (cssBlocking g) (cssExceptions g)) W)
    as [CW [CD CG]].
  { now apply applyCssExceptions_keeps. }
  unfold assembleContentBlocker, categories. cbn [List.concat].
  cbn [cssBlockingWide cssBlockingGenericDomainSensitive
       cssBlockingGenericHideExceptions cssBlockingDomainSensitive cssElemhide
       urlBlocking other important importantExceptions documentExceptions].
  rewrite !Forall_app.
  repeat split; trivial; try (now destruct optimize); constructor.
Qed.

Lemma In_firstn {A : Type} (n : nat) (l : list A) (x : A) :
  In x (firstn n l) -> In x l.
Proof.
  intros I. rewrite <- (firstn_skipn n l). apply in_app_iff. now left.
Qed.

Lemma converted_entries (rules : list RuleInput) (limit : option Z) (optimize : bool)
      (result : ConversionResult) (e : Entry) :
  convertArray adguard (Some rules) limit optimize = Some result ->
  In e (converted result) ->
  exists e0,
    In e0 (List.concat (categories (convertLines adguard rules optimize)))
    /\ e = with_trigger
             (fun t => set_unless_domain (addWildcard (unless_domain t))
                         (set_if_domain (addWildcard (if_domain t)) t)) e0.
Proof.
  intros H I. apply convertArray_result in H. subst result.
  rewrite createConversionResult_converted in I.
  unfold applyDomainWildcards in I. apply in_map_iff in I.
  destruct I as [e0 [<- I]]. exists e0. split; [| reflexivity].
  assert (J : In e0 (concatCategories (convertLines adguard rules optimize))).
  { unfold truncateTo in I.
    destruct (limitExceeded limit _); [now apply In_firstn in I | exact I]. }
  rewrite concatCategories_ordered in J.
  unfold categories. cbn [List.concat]. now rewrite app_nil_r.
Qed.

Lemma conversion_cases (r : Rule) (e : Entry) :
  convertAGRuleToCB adguard (Some r) = Ret e ->
  convertCssFilterRule adguard r = Ret e \/ convertUrlFilterRule adguard r = Ret e.
Proof.
  unfold convertAGRuleToCB. destruct (ruleClass r); auto. discriminate.
Qed.

Lemma pushExceptionDomain_fields (d : string) (e : Entry) :
  action (pushExceptionDomain d e) = action e
  /\ url_filter (trigger (pushExceptionDomain d e)) = url_filter (trigger e)
  /\ url_filter_is_case_sensitive (trigger (pushExceptionDomain d e))
     = url_filter_is_case_sensitive (trigger e)
  /\ resource_type (trigger (pushExceptionDomain d e)) = resource_type (trigger e)
  /\ load_type (trigger (pushExceptionDomain d e)) = load_type (trigger e)
  /\ if_domain (trigger (pushExceptionDomain d e)) = if_domain (trigger e)
  /\ (unless_domain (trigger e) <> Some [] ->
      unless_domain (trigger (pushExceptionDomain d e)) <> Some []).
Proof.
  rewrite pushExceptionDomain_unlessAdded.
  destruct (applicableHost e d); cbn; repeat split; trivial.
  intros _. unfold push. now destruct (domainsOf (unless_domain (trigger e))).
Qed.

Lemma validateRegExp_css : validateRegExp ".*" = Ret tt.
Proof. reflexivity. Qed.

(** X15. Every entry of [converted] has a url-filter that [validateRegExp]
    accepts: a url rule is converted only when its url-filter string passes,
    and the filters the converter writes itself, ".*" for the CSS entries and
    the any-URL filter of the whitelist rewrite, pass as well. *)
Theorem emitted_url_filter_valid
        (rules : list RuleInput) (limit : option Z) (optimize : bool)
        (result : ConversionResult) (e : Entry) :
  convertArray adguard (Some rules) limit optimize = Some result ->
  In e (converted result) ->
  validateRegExp (url_filter (trigger e)) = Ret tt.
Proof.
  intros H I. destruct (@converted_entries rules limit optimize result e H I) as [e0 [I0 ->]].
  cbn [with_trigger trigger set_unless_domain set_if_domain url_filter].
  pose proof (@convertLines_keeps
                (fun e => validateRegExp (url_filter (trigger e)) = Ret tt)
                rules optimize) as K.
  rewrite Forall_forall in K. apply K; trivial.
  - intros r e1 _ C. apply conversion_cases in C. destruct C as [C | C].
    + apply css_entry_shape in C. subst e1. reflexivity.
    + now apply url_entry_filter_valid in C.
  - intros d e1 V. destruct (pushExceptionDomain_fields d e1) as [_ [-> _]]. exact V.
Qed.

(** X16. Every entry of [converted] has a url-filter that is not the empty
    string, provided no translated rule has the empty string as the source of
    its regular expression. *)
Theorem emitted_url_filter_nonempty
        (rules : list RuleInput) (limit : option Z) (optimize : bool)
        (result : ConversionResult) (e : Entry) :
  (forall r, In r (translatedRules adguard rules) -> urlRegExp r <> Some "") ->
  convertArray adguard (Some rules) limit optimize = Some result ->
  In e (converted result) ->
  url_filter (trigger e) <> "".
Proof.
  intros N H I. destruct (@converted_entries rules limit optimize result e H I) as [e0 [I0 ->]].
  cbn [with_trigger trigger set_unless_domain set_if_domain url_filter].
  pose proof (@convertLines_keeps (fun e => url_filter (trigger e) <> "")
                                  rules optimize) as K.
  rewrite Forall_forall in K. apply K; trivial.
  - intros r e1 T C. apply conversion_cases in C. destruct C as [C | C].
    + apply css_entry_shape in C. subst e1. discriminate.
    + apply url_entry_filter_valid in C. destruct C as [[-> | ->] _].
      * apply createUrlFilterString_start. now apply N.
      * discriminate.
  - intros d e1 V. destruct (pushExceptionDomain_fields d e1) as [_ [-> _]]. exact V.
  - intros batch. discriminate.
Qed.

(** X17. Every blocking entry for documents in [converted] is scoped: an entry
    of the type block with document among its resource types has an if-domain
    key or the load type third-party. *)
Theorem emitted_document_block_scoped
        (rules : list RuleInput) (limit : option Z) (optimize : bool)
        (result : ConversionResult) (e : Entry) :
  convertArray adguard (Some rules) limit optimize = Some result ->
  In e (converted result) ->
  documentBlockScoped e.
Proof.
  intros H I. destruct (@converted_entries rules limit optimize result e H I) as [e0 [I0 ->]].
  pose proof (@convertLines_keeps documentBlockScoped rules optimize) as K.
  rewrite Forall_forall in K.
  assert (S : documentBlockScoped e0).
  { apply K; trivial.
    - intros r e1 _ C. apply conversion_cases in C. destruct C as [C | C].
      + apply css_entry_shape in C. subst e1. intros A.
        cbn in A. now destruct (whiteListRule r).
      + now apply url_entry_document_block_scoped in C.
    - intros d e1 S.
      destruct (pushExceptionDomain_fields d e1) as [A [_ [_ [R [L [F _]]]]]].
      unfold documentBlockScoped. now rewrite A, R, L, F.
    - intros batch A. discriminate. }
  intros A R. destruct (S A R) as [F | L].
  - left. cbn. now destruct (if_domain (trigger e0)).
  - right. exact L.
Qed.

(** X18. No entry of [converted] has an empty if-domain or unless-domain
    array: a domain key that is present holds at least one host. *)
Theorem emitted_domain_keys_filled
        (rules : list RuleInput) (limit : option Z) (optimize : bool)
        (result : ConversionResult) (e : Entry) :
  convertArray adguard (Some rules) limit optimize = Some result ->
  In e (converted result) ->
  domainKeysFilled e.
Proof.
  intros H I. destruct (@converted_entries rules limit optimize result e H I) as [e0 [I0 ->]].
  pose proof (@convertLines_keeps domainKeysFilled rules optimize) as K.
  rewrite Forall_forall in K.
  assert (S : domainKeysFilled e0).
  { apply K; trivial.
    - intros r e1 _ C. apply conversion_cases in C. destruct C as [C | C].
      + apply css_entry_shape in C. subst e1. unfold domainKeysFilled. cbn.
        destruct (includedDomains adguard r), (excludedDomains adguard r);
          split; discriminate.
      + apply convertUrlFilterRule_before_rewrite in C.
        destruct C as [types [_ [_ [_ W]]]].
        apply checkWhiteListExceptions_cases in W.
        destruct W as [-> | [[_ [_ ->]] | [_ [d ->]]]]; unfold domainKeysFilled; cbn;
          destruct (includedDomains adguard r), (excludedDomains adguard r);
          split; discriminate.
    - intros d e1 [F U].
      destruct (pushExceptionDomain_fields d e1) as [_ [_ [_ [_ [_ [F' U']]]]]].
      split; [now rewrite F' | now apply U'].
    - intros batch. split; discriminate. }
  destruct S as [F U]. unfold domainKeysFilled. cbn. split.
  - destruct (if_domain (trigger e0)) as [[|h l]|]; [congruence | discriminate..].
  - destruct (unless_domain (trigger e0)) as [[|h l]|]; [congruence | discriminate..].
Qed.

End FurtherProperties.
